(** * RealtimeSTT personal assistant: interruptible playback and turn taking

    A shallow embedding of
    - [personal_assistant/interruptible_tts_wrapper.py]
      ([InterruptibleTTSWrapper], [EnhancedAssistantTTSWrapper]),
    - the sentence loop of [personal_assistant/assistant_server_interruptible.py]
      ([generate_llm_response], [recorder_thread]),
    - [TurnDetector] of [personal_assistant/enhanced_assistant_server.py],
    followed by the properties of the specification stated over it.

    Conventions.  The wrapper object is a record of its attributes.  The
    worker thread is a program counter [Pc] over the statements of
    [_worker_loop]; one [tick] runs the statement the counter points at, so
    that calls of the front end ([speak], [interrupt], [clear_queue],
    [shutdown], the VAD callback) can be placed between any two of them.
    Each front-end call is one atomic transition.  Callbacks and log lines
    are recorded, in order, in a trace.  The synthesis service, the MP3
    decoder, the audio device and the language model are external: they
    enter as oracles. *)

From Stdlib Require Import List String ZArith Bool Lia PeanoNat PrimFloat.
From Stdlib.Strings Require Import Byte.
Import ListNotations.
Local Open Scope string_scope.
Local Open Scope list_scope.

(* ================================================================== *)
(** * interruptible_tts_wrapper.py *)
(* ================================================================== *)

Module Tts.

(** [class InterruptReason(Enum)] *)
Inductive InterruptReason : Type :=
| MANUAL | VAD_DETECTED | WAKE_WORD | NEW_MESSAGE | SHUTDOWN.

(** [reason.value] *)
Definition value (r : InterruptReason) : string :=
  match r with
  | MANUAL => "manual"
  | VAD_DETECTED => "vad_detected"
  | WAKE_WORD => "wake_word"
  | NEW_MESSAGE => "new_message"
  | SHUTDOWN => "shutdown"
  end.

(** [@dataclass class AudioTask].  [priority] is a Python [int]: unbounded. *)
Record AudioTask : Type := mkTask {
  text : string;
  task_id : string;
  priority : Z;
  metadata : list (string * string)
}.

(** What the wrapper does that can be seen from outside: the three optional
    callbacks, the original VAD callback of the recorder, and the lines it
    hands to [logger]. *)
Inductive Event : Type :=
| CallSpeechStart                                  (* self.on_speech_start() *)
| CallSpeechEnd                                    (* self.on_speech_end() *)
| CallSpeechInterrupted (r : InterruptReason)      (* self.on_speech_interrupted(reason) *)
| CallOriginalVadStart                             (* self._original_on_vad_start() *)
| LogInitialized (v : string)
| LogPreempt (cur new : string)   (* "Interrupting current task .. for higher priority .." *)
| LogInterrupt (r : InterruptReason)               (* "Interrupting audio playback: .." *)
| LogProcessing (id : string)                      (* "Processing audio task: .." *)
| LogGenerationInterrupted                         (* "Audio generation interrupted" *)
| LogGenerationError                               (* "Error generating audio: .." *)
| LogWorkerError.                                  (* "Error in TTS worker: .." *)

(** The PyAudio output stream held in [self.stream] once it has been opened. *)
Inductive StreamState : Type := Active | Closed.

(** The attributes of an [InterruptibleTTSWrapper].  A callback attribute is
    [true] when a callable was supplied ([None] otherwise); its calls go to
    the trace.  [audio_queue] is the [queue.Queue]: [put] appends at the
    back, [get] takes the front; [None] is the shutdown sentinel.
    [should_stop] is the [threading.Event]. *)
Record Wrapper : Type := mkWrapper {
  voice : string;
  on_speech_start : bool;
  on_speech_end : bool;
  on_speech_interrupted : bool;
  is_speaking : bool;
  should_stop : bool;
  audio_queue : list (option AudioTask);
  current_task : option AudioTask;
  stream : option StreamState;
  pyaudio_terminated : bool;
  (* EnhancedAssistantTTSWrapper *)
  recorder : bool;
  _original_on_vad_start : bool
}.

(** [self.chunk_size]: frames per write; a frame is one 16-bit sample. *)
Definition chunk_size : nat := 1024.

Definition set_is_speaking (b : bool) (w : Wrapper) : Wrapper :=
  mkWrapper (voice w) (on_speech_start w) (on_speech_end w) (on_speech_interrupted w)
            b (should_stop w) (audio_queue w) (current_task w) (stream w)
            (pyaudio_terminated w) (recorder w) (_original_on_vad_start w).

Definition set_should_stop (b : bool) (w : Wrapper) : Wrapper :=
  mkWrapper (voice w) (on_speech_start w) (on_speech_end w) (on_speech_interrupted w)
            (is_speaking w) b (audio_queue w) (current_task w) (stream w)
            (pyaudio_terminated w) (recorder w) (_original_on_vad_start w).

Definition set_audio_queue (q : list (option AudioTask)) (w : Wrapper) : Wrapper :=
  mkWrapper (voice w) (on_speech_start w) (on_speech_end w) (on_speech_interrupted w)
            (is_speaking w) (should_stop w) q (current_task w) (stream w)
            (pyaudio_terminated w) (recorder w) (_original_on_vad_start w).

Definition set_current_task (t : option AudioTask) (w : Wrapper) : Wrapper :=
  mkWrapper (voice w) (on_speech_start w) (on_speech_end w) (on_speech_interrupted w)
            (is_speaking w) (should_stop w) (audio_queue w) t (stream w)
            (pyaudio_terminated w) (recorder w) (_original_on_vad_start w).

Definition set_stream (st : option StreamState) (w : Wrapper) : Wrapper :=
  mkWrapper (voice w) (on_speech_start w) (on_speech_end w) (on_speech_interrupted w)
            (is_speaking w) (should_stop w) (audio_queue w) (current_task w) st
            (pyaudio_terminated w) (recorder w) (_original_on_vad_start w).

Definition set_pyaudio_terminated (b : bool) (w : Wrapper) : Wrapper :=
  mkWrapper (voice w) (on_speech_start w) (on_speech_end w) (on_speech_interrupted w)
            (is_speaking w) (should_stop w) (audio_queue w) (current_task w) (stream w)
            b (recorder w) (_original_on_vad_start w).

(** One item of [communicate.stream()]: [chunk["type"]] and [chunk["data"]]. *)
Record Chunk : Type := mkChunk {
  chunk_type : string;
  chunk_data : list byte
}.

(** The worker thread: which statement of [_worker_loop] runs next, with the
    local variables live at that point. *)
Inductive Pc : Type :=
| AtGet                                  (* task = self.audio_queue.get() *)
| AtSetCurrent (task : AudioTask)        (* self.current_task = task *)
| AtSetSpeaking (task : AudioTask)       (* self.is_speaking = True *)
| AtClearStop (task : AudioTask)         (* self.should_stop.clear() *)
| AtNotifyStart (task : AudioTask)       (* logger.info(..); if self.on_speech_start: .. *)
| AtGenerate (pending : list Chunk) (raises : bool) (mp3_chunks : list (list byte))
                                         (* inside _generate_audio: async for chunk .. *)
| AtCheckAudio (audio_data : option (list byte))
                                         (* if audio_data and not self.should_stop.is_set() *)
| AtOpenStream (audio_data : list byte)  (* _play_audio: if not self.stream: .. *)
| AtPlay (rest : list byte)              (* _play_audio: for i in range(..) *)
| AtNotifyEnd (completed : bool)         (* if completed and self.on_speech_end: .. *)
| AtResetSpeaking                        (* self.is_speaking = False *)
| AtResetCurrent                         (* self.current_task = None *)
| AtExcept                               (* except Exception: .. self.is_speaking = False *)
| Stopped.                               (* break *)

(** The wrapper together with its worker thread and what has been observed. *)
Record Sys : Type := mkSys {
  obj : Wrapper;
  wpc : Pc;
  trace : list Event
}.

Definition upd (f : Wrapper -> Wrapper) (s : Sys) : Sys :=
  mkSys (f (obj s)) (wpc s) (trace s).

Definition goto (pc : Pc) (s : Sys) : Sys :=
  mkSys (obj s) pc (trace s).

Definition emit (e : Event) (s : Sys) : Sys :=
  mkSys (obj s) (wpc s) (trace s ++ [e]).

(** [InterruptibleTTSWrapper.__init__] (and, with [rec = true],
    [EnhancedAssistantTTSWrapper.__init__] followed by
    [_setup_vad_callbacks]): [orig] says whether the recorder already had an
    [on_vad_detect_start]. *)
Definition init (v : string) (cb_start cb_end cb_int : bool) (rec orig : bool) : Sys :=
  mkSys (mkWrapper v cb_start cb_end cb_int false false [] None None false
                   rec (rec && orig))
        AtGet
        [LogInitialized v].

(** [interrupt(self, reason=InterruptReason.MANUAL)] *)
Definition interrupt (reason : InterruptReason) (s : Sys) : Sys :=
  if is_speaking (obj s) then
    let s1 := emit (LogInterrupt reason) s in
    let s2 := upd (set_should_stop true) s1 in
    if on_speech_interrupted (obj s2) then emit (CallSpeechInterrupted reason) s2
    else s2
  else s.

(** Python truthiness of the [task_id] argument: [None] and [""] are falsy. *)
Definition truthy_str (o : option string) : bool :=
  match o with
  | Some x => negb (String.eqb x "")
  | None => false
  end.

(** [speak(self, text, task_id=None, priority=0, metadata=None)].  [uuid]
    is the value [str(uuid.uuid4())] yields when it is asked for.  Returns
    the task id and the new state. *)
Definition speak (text : string) (task_id : option string) (priority : Z)
    (metadata : option (list (string * string))) (uuid : string) (s : Sys)
  : string * Sys :=
  let task_id := if truthy_str task_id
                 then match task_id with Some x => x | None => uuid end
                 else uuid in
  let task := mkTask text task_id priority
                     (match metadata with Some m => m | None => [] end) in
  let s1 :=
    match current_task (obj s) with
    | Some cur =>
        if is_speaking (obj s) && (Tts.priority cur <? priority)%Z
        then interrupt NEW_MESSAGE (emit (LogPreempt (Tts.task_id cur) task_id) s)
        else s
    | None => s
    end in
  (task_id, upd (fun w => set_audio_queue (audio_queue w ++ [Some task]) w) s1).

(** [clear_queue(self)]: [get_nowait] until the queue is empty. *)
Definition clear_queue (s : Sys) : Sys :=
  upd (set_audio_queue []) s.

(** [shutdown(self)].  [stop_stream] and [close] leave the handle in
    [self.stream], closed; [self.pyaudio.terminate()] releases the device. *)
Definition shutdown (s : Sys) : Sys :=
  let s1 := interrupt SHUTDOWN s in
  let s2 := clear_queue s1 in
  let s3 := upd (fun w => set_audio_queue (audio_queue w ++ [None]) w) s2 in
  let s4 := match stream (obj s3) with
            | Some _ => upd (set_stream (Some Closed)) s3
            | None => s3
            end in
  upd (set_pyaudio_terminated true) s4.

(** [on_vad_interrupt], the closure [_setup_vad_callbacks] installs as
    [recorder.on_vad_detect_start]. *)
Definition on_vad_interrupt (s : Sys) : Sys :=
  let s1 := interrupt VAD_DETECTED s in
  if _original_on_vad_start (obj s1) then emit CallOriginalVadStart s1 else s1.

(** The recorder reports the start of voice activity: it calls whatever is
    in its [on_vad_detect_start], which is [on_vad_interrupt] when the
    wrapper was given the recorder. *)
Definition voice_activity_start (s : Sys) : Sys :=
  if recorder (obj s) then on_vad_interrupt s else s.

(** The external services the worker calls. *)
Record Engine : Type := mkEngine {
  (* edge_tts.Communicate(text, voice).stream(): the items delivered, and
     whether the stream then raises instead of ending *)
  communicate : string -> string -> list Chunk * bool;
  (* AudioSegment.from_mp3 and the conversions to 16 kHz mono 16-bit;
     [None] when decoding raises *)
  from_mp3 : list byte -> option (list byte);
  (* self.pyaudio.open(..) succeeds *)
  device_open : bool;
  (* self.stream.write(chunk) succeeds on an open stream *)
  device_write : list byte -> bool
}.

(** Truthiness of [audio_data]: neither [None] nor [b'']. *)
Definition truthy_bytes (a : option (list byte)) : option (list byte) :=
  match a with
  | Some (b :: r) => Some (b :: r)
  | _ => None
  end.

Section Worker.

Variable E : Engine.

(** One statement of the worker thread. *)
Definition tick (s : Sys) : Sys :=
  match wpc s with
  | AtGet =>
      match audio_queue (obj s) with
      | [] => s                                   (* get() blocks *)
      | Some task :: q => goto (AtSetCurrent task) (upd (set_audio_queue q) s)
      | None :: q => goto Stopped (upd (set_audio_queue q) s)
      end
  | AtSetCurrent task =>
      goto (AtSetSpeaking task) (upd (set_current_task (Some task)) s)
  | AtSetSpeaking task =>
      goto (AtClearStop task) (upd (set_is_speaking true) s)
  | AtClearStop task =>
      goto (AtNotifyStart task) (upd (set_should_stop false) s)
  | AtNotifyStart task =>
      let s1 := emit (LogProcessing (task_id task)) s in
      let s2 := if on_speech_start (obj s1) then emit CallSpeechStart s1 else s1 in
      let '(items, raises) := communicate E (text task) (voice (obj s2)) in
      goto (AtGenerate items raises []) s2
  | AtGenerate (chunk :: pending) raises mp3_chunks =>
      let mp3_chunks' :=
        if String.eqb (chunk_type chunk) "audio"
        then mp3_chunks ++ [chunk_data chunk] else mp3_chunks in
      if should_stop (obj s)
      then goto (AtCheckAudio None) (emit LogGenerationInterrupted s)
      else goto (AtGenerate pending raises mp3_chunks') s
  | AtGenerate [] true _ =>
      goto (AtCheckAudio None) (emit LogGenerationError s)
  | AtGenerate [] false mp3_chunks =>
      match from_mp3 E (List.concat mp3_chunks) with
      | Some raw_data => goto (AtCheckAudio (Some raw_data)) s
      | None => goto (AtCheckAudio None) (emit LogGenerationError s)
      end
  | AtCheckAudio audio_data =>
      match truthy_bytes audio_data with
      | Some data =>
          if should_stop (obj s) then goto AtResetSpeaking s
          else goto (AtOpenStream data) s
      | None => goto AtResetSpeaking s
      end
  | AtOpenStream data =>
      match stream (obj s) with
      | Some _ => goto (AtPlay data) s
      | None =>
          if device_open E
          then goto (AtPlay data) (upd (set_stream (Some Active)) s)
          else goto AtExcept s
      end
  | AtPlay [] => goto (AtNotifyEnd true) s
  | AtPlay (b :: r) =>
      if should_stop (obj s) then goto (AtNotifyEnd false) s
      else
        let chunk := firstn (chunk_size * 2) (b :: r) in
        match stream (obj s) with
        | Some Active =>
            if device_write E chunk
            then goto (AtPlay (skipn (chunk_size * 2) (b :: r))) s
            else goto AtExcept s
        | _ => goto AtExcept s
        end
  | AtNotifyEnd completed =>
      if completed && on_speech_end (obj s)
      then goto AtResetSpeaking (emit CallSpeechEnd s)
      else goto AtResetSpeaking s
  | AtResetSpeaking => goto AtResetCurrent (upd (set_is_speaking false) s)
  | AtResetCurrent => goto AtGet (upd (set_current_task None) s)
  | AtExcept => goto AtGet (upd (set_is_speaking false) (emit LogWorkerError s))
  | Stopped => s
  end.

(** [n] statements of the worker with nothing in between. *)
Fixpoint ticks (n : nat) (s : Sys) : Sys :=
  match n with
  | O => s
  | S n' => ticks n' (tick s)
  end.

(** What the two threads can do. *)
Inductive Action : Type :=
| Speak (text : string) (task_id : option string) (priority : Z)
        (metadata : option (list (string * string))) (uuid : string)
| Interrupt (reason : InterruptReason)
| ClearQueue
| Shutdown
| VoiceActivityStart
| Tick.

Definition act (a : Action) (s : Sys) : Sys :=
  match a with
  | Speak t i p m u => snd (speak t i p m u s)
  | Interrupt r => interrupt r s
  | ClearQueue => clear_queue s
  | Shutdown => shutdown s
  | VoiceActivityStart => voice_activity_start s
  | Tick => tick s
  end.

(** A schedule: the calls of the front end interleaved with worker statements. *)
Definition run (sched : list Action) (s : Sys) : Sys :=
  fold_left (fun st a => act a st) sched s.

(** The worker is waiting in [get()] on an empty queue, or has left its loop. *)
Definition quiescent (s : Sys) : bool :=
  match wpc s with
  | AtGet => match audio_queue (obj s) with [] => true | _ => false end
  | Stopped => true
  | _ => false
  end.

(** Let the worker run on its own until it can go no further. *)
Fixpoint drain (fuel : nat) (s : Sys) : Sys :=
  match fuel with
  | O => s
  | S f => if quiescent s then s else drain f (tick s)
  end.

End Worker.

(** The ids of the tasks the worker took from the queue, in the order it took
    them: one "Processing audio task" line each. *)
Fixpoint dequeued (tr : list Event) : list string :=
  match tr with
  | [] => []
  | LogProcessing id :: r => id :: dequeued r
  | _ :: r => dequeued r
  end.

End Tts.

(* ================================================================== *)
(** * assistant_server_interruptible.py *)
(* ================================================================== *)

Module Srv.

(** A JSON object handed to [send_to_clients]: its ['type'] and the other keys. *)
Record Message : Type := mkMessage {
  mtype : string;
  fields : list (string * string)
}.

(** The module-level state the sentence loop reads and writes.  [main_loop]
    is [true] once the event loop is set; [api_key] is
    [os.environ.get('ANTHROPIC_API_KEY')]; [conversation_history] holds
    [{"role": .., "content": ..}] entries; [sent] collects what was passed to
    [send_to_clients], in order. *)
Record Server : Type := mkServer {
  main_loop : bool;
  conversation_mode : bool;
  conversation_history : list (string * string);
  api_key : option string;
  tts_wrapper : Tts.Sys;
  sent : list Message
}.

Definition set_history (h : list (string * string)) (v : Server) : Server :=
  mkServer (main_loop v) (conversation_mode v) h (api_key v) (tts_wrapper v) (sent v).

Definition set_tts (t : Tts.Sys) (v : Server) : Server :=
  mkServer (main_loop v) (conversation_mode v) (conversation_history v) (api_key v)
           t (sent v).

(** [if main_loop: asyncio.run_coroutine_threadsafe(send_to_clients(..), main_loop)] *)
Definition broadcast (m : Message) (v : Server) : Server :=
  if main_loop v
  then mkServer (main_loop v) (conversation_mode v) (conversation_history v)
                (api_key v) (tts_wrapper v) (sent v ++ [m])
  else v.

(** [xs[-n:]] *)
Definition last_n {A : Type} (n : nat) (xs : list A) : list A :=
  skipn (List.length xs - n) xs.

Definition missing_key_text : string :=
  "Please set ANTHROPIC_API_KEY environment variable".

Definition error_text : string :=
  "I'm sorry, I encountered an error processing your request.".

Section Generator.

(** [client.messages.create(.., messages=messages)] followed by
    [response.content[0].text]: the reply, or [None] when anything in
    between raises. *)
Variable llm : list (string * string) -> option string.

(** [generate_llm_response(user_text)] *)
Definition generate_llm_response (user_text : string) (v : Server) : string * Server :=
  if Tts.truthy_str (api_key v) then
    let messages := last_n 20 (conversation_history v) ++ [("user", user_text)] in
    match llm messages with
    | Some assistant_response =>
        (assistant_response,
         set_history (conversation_history v
                        ++ [("user", user_text); ("assistant", assistant_response)]) v)
    | None => (error_text, v)                    (* except Exception *)
    end
  else (missing_key_text, v).

(** One round of the [while is_running] loop of [recorder_thread], for the
    sentence [recorder.text()] returned.  [ts1], [ts2] are the two readings
    of the clock, [uuid] the id [speak] draws. *)
Definition on_full_sentence (full_sentence ts1 ts2 uuid : string) (v : Server) : Server :=
  if String.eqb full_sentence "" then v
  else
    let v1 := broadcast (mkMessage "fullSentence"
                           [("text", full_sentence); ("timestamp", ts1)]) v in
    if conversation_mode v1 then
      let v2 := set_tts (Tts.clear_queue (tts_wrapper v1)) v1 in
      let v3 := broadcast (mkMessage "assistant_processing" []) v2 in
      let '(response, v4) := generate_llm_response full_sentence v3 in
      let v5 := broadcast (mkMessage "assistant_response"
                             [("text", response); ("timestamp", ts2)]) v4 in
      set_tts (snd (Tts.speak response None 1 None uuid (tts_wrapper v5))) v5
    else v1.

End Generator.

(** A control message of a client, after [json.loads]: ["type"], ["text"]
    and ["priority"] when present. *)
Record Control : Type := mkControl {
  ctype : option string;
  ctext : option string;
  cpriority : option Z
}.

(** The text branch of [handle_client].  The reply to ["ping"] goes to the
    one client, not through [send_to_clients]; it is returned on the side. *)
Definition handle_control (data : Control) (uuid : string) (v : Server)
  : option Message * Server :=
  match ctype data with
  | Some "ping" => (Some (mkMessage "pong" []), v)
  | Some "interrupt" => (None, set_tts (Tts.interrupt Tts.MANUAL (tts_wrapper v)) v)
  | Some "speak" =>
      let text := match ctext data with Some t => t | None => "" end in
      let priority := match cpriority data with Some p => p | None => 0%Z end in
      if String.eqb text "" then (None, v)
      else (None, set_tts (snd (Tts.speak text None priority None uuid (tts_wrapper v))) v)
  | _ => (None, v)
  end.

End Srv.

(* ================================================================== *)
(** * enhanced_assistant_server.py: TurnDetector *)
(* ================================================================== *)

Module Turn.

Local Open Scope float_scope.
Set Warnings "-inexact-float".

(** The attributes of a [TurnDetector].  Times are what [time.time()]
    returns: binary64 seconds. *)
Record TurnDetector : Type := mkTurnDetector {
  last_speech_time : float;
  silence_threshold : float;
  min_speech_duration : float;
  is_user_speaking : bool;
  conversation_pace : string
}.

(** [__init__], [now] being [time.time()] *)
Definition init (now : float) : TurnDetector :=
  mkTurnDetector now 0.8 0.3 false "normal".

(** [on_speech_start(self)] *)
Definition on_speech_start (now : float) (d : TurnDetector) : TurnDetector :=
  mkTurnDetector now (silence_threshold d) (min_speech_duration d) true
                 (conversation_pace d).

(** [on_speech_end(self)] *)
Definition on_speech_end (d : TurnDetector) : TurnDetector :=
  mkTurnDetector (last_speech_time d) (silence_threshold d) (min_speech_duration d)
                 false (conversation_pace d).

(** [should_respond(self)] *)
Definition should_respond (now : float) (d : TurnDetector) : bool :=
  let silence_duration := now - last_speech_time d in
  let threshold := silence_threshold d in
  let threshold :=
    if String.eqb (conversation_pace d) "fast" then threshold * 0.7
    else if String.eqb (conversation_pace d) "slow" then threshold * 1.3
    else threshold in
  negb (is_user_speaking d) && (threshold <? silence_duration).

(** [update_pace(self, response_time)] *)
Definition update_pace (response_time : float) (d : TurnDetector) : TurnDetector :=
  mkTurnDetector (last_speech_time d) (silence_threshold d) (min_speech_duration d)
                 (is_user_speaking d)
                 (if response_time <? 0.5 then "fast"%string
                  else if 1.5 <? response_time then "slow"%string
                  else "normal"%string).

(** [EnhancedAssistant.on_vad_start] and [on_vad_stop], as far as the turn
    detector is concerned. *)
Definition on_vad_start (now : float) (d : TurnDetector) : TurnDetector :=
  on_speech_start now d.

Definition on_vad_stop (now : float) (d : TurnDetector) : TurnDetector :=
  on_speech_end d.

End Turn.

(* ================================================================== *)
(** * Vocabulary of the statements *)
(* ================================================================== *)

Module Obs.

Import Tts.

(** The arguments of one [speak] call. *)
Record SpeakCall : Type := mkCall {
  c_text : string;
  c_task_id : option string;
  c_priority : Z;
  c_metadata : option (list (string * string));
  c_uuid : string
}.

Definition call (c : SpeakCall) (s : Sys) : string * Sys :=
  speak (c_text c) (c_task_id c) (c_priority c) (c_metadata c) (c_uuid c) s.

(** The [AudioTask] a call builds. *)
Definition task_of (c : SpeakCall) : AudioTask :=
  mkTask (c_text c)
         (if truthy_str (c_task_id c)
          then match c_task_id c with Some x => x | None => c_uuid c end
          else c_uuid c)
         (c_priority c)
         (match c_metadata c with Some m => m | None => [] end).

(** The calls one after the other. *)
Definition speak_all (calls : list SpeakCall) (s : Sys) : Sys :=
  fold_left (fun st c => snd (call c st)) calls s.

(** The order the specification asks of the pending collection: priority
    descending, and arrival order among equal priorities.  A task is put
    behind every pending task whose priority is not lower than its own. *)
Fixpoint spec_insert (t : AudioTask) (pending : list AudioTask) : list AudioTask :=
  match pending with
  | [] => [t]
  | x :: r =>
      if (priority x <? priority t)%Z then t :: x :: r
      else x :: spec_insert t r
  end.

Definition spec_pending_order (arrivals : list AudioTask) : list AudioTask :=
  fold_left (fun acc t => spec_insert t acc) arrivals [].

(** The tasks in front of the first shutdown sentinel: those a worker
    running on would still take. *)
Fixpoint before_sentinel (q : list (option AudioTask)) : list AudioTask :=
  match q with
  | Some t :: r => t :: before_sentinel r
  | _ => []
  end.

(** The task the worker holds but has not yet logged as being processed. *)
Definition owed (pc : Pc) : list string :=
  match pc with
  | AtSetCurrent t | AtSetSpeaking t | AtClearStop t | AtNotifyStart t => [task_id t]
  | _ => []
  end.

(** Tasks taken from the queue so far. *)
Definition served (s : Sys) : list string :=
  dequeued (trace s) ++ owed (wpc s).

(** Tasks the worker will still take if nothing else happens. *)
Definition pending (s : Sys) : list string :=
  match wpc s with
  | Stopped => []
  | _ => map task_id (before_sentinel (audio_queue (obj s)))
  end.

(** The worker is between [self.is_speaking = True] and
    [self.is_speaking = False] of one round of its loop. *)
Definition in_flight (pc : Pc) : bool :=
  match pc with
  | AtClearStop _ | AtNotifyStart _ | AtGenerate _ _ _ | AtCheckAudio _
  | AtOpenStream _ | AtPlay _ | AtNotifyEnd _ | AtResetSpeaking => true
  | _ => false
  end.

(** The part of a wrapper fixed at construction. *)
Definition config (w : Wrapper) : string * bool * bool * bool * bool * bool :=
  (voice w, on_speech_start w, on_speech_end w, on_speech_interrupted w,
   recorder w, _original_on_vad_start w).

(** The worker holds a task from [self.current_task = task] on. *)
Definition holds_task (pc : Pc) : bool :=
  match pc with
  | AtSetSpeaking _ => true
  | _ => in_flight pc
  end.

(** While the worker is between setting and resetting [is_speaking], the
    flag is set; while it holds a task, [current_task] is that task; and it
    only enters [_play_audio] with audio to play. *)
Definition worker_owns (s : Sys) : Prop :=
  (in_flight (wpc s) = true -> is_speaking (obj s) = true) /\
  (holds_task (wpc s) = true -> current_task (obj s) <> None) /\
  (forall d, wpc s = AtOpenStream d -> d <> []).

(** [PlaybackState] of the specification, read off the program counter. *)
Definition synthesizing (pc : Pc) : bool :=
  match pc with
  | AtGenerate _ _ _ => true
  | _ => false
  end.

Definition playing (pc : Pc) : bool :=
  match pc with
  | AtOpenStream _ | AtPlay _ => true
  | _ => false
  end.

(** The worker has cleared the stop flag for the round and has not yet
    written the last slice: from [logger.info("Processing audio task")] to
    the loop of [_play_audio] with a slice left. *)
Definition stoppable (pc : Pc) : bool :=
  match pc with
  | AtNotifyStart _ | AtGenerate _ _ _ | AtCheckAudio _ | AtOpenStream _
  | AtPlay (_ :: _) => true
  | _ => false
  end.

(** What [mp3_chunks] holds once the items [pending] have been consumed. *)
Fixpoint collect (pending : list Chunk) (mp3_chunks : list (list byte))
  : list (list byte) :=
  match pending with
  | [] => mp3_chunks
  | c :: r =>
      collect r (if String.eqb (chunk_type c) "audio"
                 then mp3_chunks ++ [chunk_data c] else mp3_chunks)
  end.

(** What [_generate_audio] returns when the stop flag stays clear. *)
Definition generated (E : Engine) (pending : list Chunk) (raises : bool)
    (mp3_chunks : list (list byte)) : option (list byte) :=
  if raises then None else from_mp3 E (List.concat (collect pending mp3_chunks)).

(** Synthesis of [text] with [voice] fails: the stream raises, or the decoder does. *)
Definition synthesis_fails (E : Engine) (text voice : string) : bool :=
  let '(items, raises) := communicate E text voice in
  match generated E items raises [] with
  | Some _ => false
  | None => true
  end.

Definition blen (a : option (list byte)) : nat :=
  match truthy_bytes a with
  | Some d => List.length d
  | None => 0
  end.

(** An upper bound on the statements one task still takes. *)
Definition task_work (E : Engine) (v : string) (t : AudioTask) : nat :=
  let '(items, raises) := communicate E (text t) v in
  List.length items + blen (generated E items raises []).

Definition pc_work (E : Engine) (v : string) (pc : Pc) : nat :=
  match pc with
  | AtGet | Stopped => 0
  | AtResetCurrent | AtExcept => 1
  | AtResetSpeaking => 2
  | AtNotifyEnd _ => 3
  | AtPlay rest => 4 + List.length rest
  | AtOpenStream d => 5 + List.length d
  | AtCheckAudio a => 6 + blen a
  | AtGenerate p r acc => 7 + List.length p + blen (generated E p r acc)
  | AtNotifyStart t => 8 + task_work E v t
  | AtClearStop t => 9 + task_work E v t
  | AtSetSpeaking t => 10 + task_work E v t
  | AtSetCurrent t => 11 + task_work E v t
  end.

Fixpoint queue_work (E : Engine) (v : string) (q : list (option AudioTask)) : nat :=
  match q with
  | [] => 0
  | Some t :: r => 12 + task_work E v t + queue_work E v r
  | None :: r => 1 + queue_work E v r
  end.

(** An upper bound on the statements the worker still runs when left alone. *)
Definition work (E : Engine) (s : Sys) : nat :=
  match wpc s with
  | Stopped => 0
  | pc => pc_work E (voice (obj s)) pc + queue_work E (voice (obj s)) (audio_queue (obj s))
  end.

(** The events a transition added. *)
Definition added (s s' : Sys) : list Event :=
  skipn (List.length (trace s)) (trace s').

(** A service that delivers two audio items around a word boundary, and a
    decoder that doubles the data; used for the examples. *)
Definition demo_engine : Engine :=
  mkEngine (fun _ _ => ([mkChunk "audio" [x01; x02]; mkChunk "WordBoundary" [];
                         mkChunk "audio" [x03]], false))
           (fun b => Some (b ++ b)) true (fun _ => true).

(** A service whose stream raises after the first item. *)
Definition failing_engine : Engine :=
  mkEngine (fun _ _ => ([mkChunk "audio" [x01; x02]], true))
           (fun b => Some (b ++ b)) true (fun _ => true).

(** A wrapper with all three callbacks, fresh from [__init__]. *)
Definition fresh : Sys := init "en-US-JennyNeural" true true true false false.

(** The same, built by [EnhancedAssistantTTSWrapper] around a recorder that
    already had a VAD callback. *)
Definition fresh_vad : Sys := init "en-US-JennyNeural" true true true true true.

(** The four tasks of property P2. *)
Definition p2_calls : list SpeakCall :=
  [mkCall "first" (Some "a") 3 None "u1"; mkCall "second" (Some "b") 1 None "u2";
   mkCall "third" (Some "c") 5 None "u3"; mkCall "fourth" (Some "d") 1 None "u4"].

End Obs.

(* ================================================================== *)
(** * interruptible_tts_wrapper.py: the VAD callback slot *)
(* ================================================================== *)

Module Vad.

Import Tts.

(** A callable that can sit in [recorder.on_vad_detect_start] or in
    [self._original_on_vad_start]: the one the recorder was configured with,
    or a closure [on_vad_interrupt] made by [_setup_vad_callbacks].  Every
    such closure reads [self._original_on_vad_start] when it is called, so
    all of them behave alike. *)
Inductive Callback : Type :=
| UserCallback
| VadInterrupt.

(** The two attributes [_setup_vad_callbacks] and [enable_auto_interrupt]
    write, for a wrapper that was given a recorder. *)
Record Wiring : Type := mkWiring {
  on_vad_detect_start : option Callback;      (* recorder.on_vad_detect_start *)
  original : option Callback                  (* self._original_on_vad_start *)
}.

(** [_setup_vad_callbacks(self)] *)
Definition _setup_vad_callbacks (w : Wiring) : Wiring :=
  mkWiring (Some VadInterrupt) (on_vad_detect_start w).

(** [enable_auto_interrupt(self, enabled=True)] *)
Definition enable_auto_interrupt (enabled : bool) (w : Wiring) : Wiring :=
  if enabled then _setup_vad_callbacks w
  else mkWiring (original w) (original w).

(** Calling a callback.  [fuel] is the depth of the Python stack still
    available; [None] is the [RecursionError] of running out of it. *)
Fixpoint call (fuel : nat) (w : Wiring) (cb : Callback) (s : Sys) : option Sys :=
  match fuel with
  | O => None
  | S f =>
      match cb with
      | UserCallback => Some (emit CallOriginalVadStart s)
      | VadInterrupt =>
          let s1 := interrupt VAD_DETECTED s in
          match original w with
          | Some o => call f w o s1
          | None => Some s1
          end
      end
  end.

(** The recorder detects the start of voice activity and calls what is in
    its slot. *)
Definition fire (fuel : nat) (w : Wiring) (s : Sys) : option Sys :=
  match on_vad_detect_start w with
  | Some cb => call fuel w cb s
  | None => Some s
  end.

End Vad.

(* ================================================================== *)
(** * interruptible_tts_wrapper.py: the slices of [_play_audio] *)
(* ================================================================== *)

Module Play.

Import Tts.

(** [range(start, stop, step)] for a positive [step]; [fuel] bounds the
    number of items. *)
Fixpoint range (fuel start stop step : nat) : list nat :=
  match fuel with
  | O => []
  | S f => if (start <? stop)%nat then start :: range f (start + step) stop step else []
  end.

(** The chunks the loop of [_play_audio] cuts and writes when nothing stops
    it: [audio_data[i:i + self.chunk_size * 2]] for [i] in
    [range(0, len(audio_data), self.chunk_size * 2)]. *)
Definition play_chunks (audio_data : list byte) : list (list byte) :=
  map (fun i => firstn (chunk_size * 2) (skipn i audio_data))
      (range (List.length audio_data) 0 (List.length audio_data) (chunk_size * 2)).

End Play.

(* ================================================================== *)
(** * assistant_server_interruptible.py: clients and callbacks *)
(* ================================================================== *)

Module Clients.

(** [connected_clients], a set of websockets (here numbered) listed in the
    order in which the set yields them when iterated, and what has reached
    each client. *)
Record Hub : Type := mkHub {
  connected_clients : list nat;
  delivered : list (nat * Srv.Message)
}.

(** [set.add] *)
Definition set_add (c : nat) (xs : list nat) : list nat :=
  if existsb (Nat.eqb c) xs then xs else xs ++ [c].

(** [set.remove]: [None] is the [KeyError] for a missing element. *)
Definition set_remove (c : nat) (xs : list nat) : option (list nat) :=
  if existsb (Nat.eqb c) xs then Some (filter (fun x => negb (Nat.eqb c x)) xs)
  else None.

(** What the other coroutines of the event loop did to [connected_clients]
    while one [client.send(message)] was awaited: nothing, or they changed
    the set and left it holding the given clients.  A handler that starts
    adds its websocket, the [finally] block of a handler that ends removes
    one, and so does the second loop of another broadcast. *)
Definition Interference : Type := option (list nat).

(** How [send_to_clients] ends. *)
Inductive Outcome : Type :=
| Returned (h : Hub)
  (* the iterator found the set with another size:
     RuntimeError: Set changed size during iteration *)
| RuntimeError (h : Hub)
  (* [remove] of a client that is not in the set *)
| KeyError (h : Hub)
  (* the set was changed under the iterator and has its old size: which
     clients the iterator yields from there on is not determined *)
| Unordered (h : Hub).

Section Send.

(** [client.send(message)] raises [ConnectionClosed]. *)
Variable closed : nat -> bool.

(** The first loop of [send_to_clients]: send to each client, collect the
    ones whose connection is closed. *)
Fixpoint send_each (message : Srv.Message) (clients disconnected : list nat)
    (log : list (nat * Srv.Message)) : list nat * list (nat * Srv.Message) :=
  match clients with
  | [] => (disconnected, log)
  | client :: rest =>
      if closed client
      then send_each message rest (set_add client disconnected) log
      else send_each message rest disconnected (log ++ [(client, message)])
  end.

(** The second loop: [connected_clients.remove(client)] for each collected
    client.  [None] if one of them is missing. *)
Fixpoint remove_each (disconnected clients : list nat) : option (list nat) :=
  match disconnected with
  | [] => Some clients
  | client :: rest =>
      match set_remove client clients with
      | Some clients' => remove_each rest clients'
      | None => None
      end
  end.

(** [send_to_clients(message)] when nothing else touches [connected_clients]
    between its first statement and its last: the coroutine run on an event
    loop that has no other coroutine to run at its awaits, or none that adds
    or removes a client.  [send_to_clients_among] below is the coroutine
    among the others. *)
Definition send_to_clients (message : Srv.Message) (h : Hub) : option Hub :=
  match connected_clients h with
  | [] => Some h
  | clients =>
      let '(disconnected, log) := send_each message clients [] (delivered h) in
      match remove_each disconnected clients with
      | Some clients' => Some (mkHub clients' log)
      | None => None
      end
  end.

(** The two loops of [send_to_clients] on an event loop that runs other
    coroutines at each [await]: [clients] is the set when the iteration
    began, [todo] what the iterator has not yielded yet, and [during] says,
    await by await, what happened to the set in the meantime.  The iterator
    compares the size of the set with the size it started from each time it
    is asked for the next client, also when none is left; the second loop
    has no await and runs undisturbed. *)
Fixpoint send_among (message : Srv.Message) (clients todo disconnected : list nat)
    (log : list (nat * Srv.Message)) (during : list Interference) : Outcome :=
  match todo with
  | [] =>
      match remove_each disconnected clients with
      | Some clients' => Returned (mkHub clients' log)
      | None => KeyError (mkHub clients log)
      end
  | client :: rest =>
      let disconnected' :=
        if closed client then set_add client disconnected else disconnected in
      let log' := if closed client then log else log ++ [(client, message)] in
      match during with
      | Some clients' :: _ =>
          if (List.length clients' =? List.length clients)%nat
          then Unordered (mkHub clients' log')
          else RuntimeError (mkHub clients' log')
      | None :: later => send_among message clients rest disconnected' log' later
      | [] => send_among message clients rest disconnected' log' []
      end
  end.

(** [send_to_clients(message)] among other coroutines. *)
Definition send_to_clients_among (message : Srv.Message)
    (during : list Interference) (h : Hub) : Outcome :=
  match connected_clients h with
  | [] => Returned h
  | clients => send_among message clients clients [] (delivered h) during
  end.

End Send.

(** [handle_client], the [finally] block:
    [connected_clients.remove(websocket)]. *)
Definition disconnect (c : nat) (h : Hub) : option Hub :=
  match set_remove c (connected_clients h) with
  | Some clients => Some (mkHub clients (delivered h))
  | None => None
  end.

End Clients.

Module Floor.

Import Tts.

(** The global [is_assistant_speaking], with [main_loop] and what was
    passed to [send_to_clients]. *)
Record State : Type := mkState {
  is_assistant_speaking : bool;
  main_loop : bool;
  sent : list Srv.Message
}.

Definition broadcast (m : Srv.Message) (f : State) : State :=
  if main_loop f
  then mkState (is_assistant_speaking f) (main_loop f) (sent f ++ [m])
  else f.

Definition set_speaking (b : bool) (f : State) : State :=
  mkState b (main_loop f) (sent f).

(** [on_speech_start()] *)
Definition on_speech_start (f : State) : State :=
  broadcast (Srv.mkMessage "tts_start" []) (set_speaking true f).

(** [on_speech_end()] *)
Definition on_speech_end (f : State) : State :=
  broadcast (Srv.mkMessage "tts_end" []) (set_speaking false f).

(** [on_speech_interrupted(reason)] *)
Definition on_speech_interrupted (reason : InterruptReason) (f : State) : State :=
  broadcast (Srv.mkMessage "tts_interrupted" [("reason", value reason)])
            (set_speaking false f).

(** [on_vad_detect_start()] *)
Definition on_vad_detect_start (f : State) : State :=
  broadcast (Srv.mkMessage "vad_start" []) f.

(** [on_vad_detect_stop()] *)
Definition on_vad_detect_stop (f : State) : State :=
  broadcast (Srv.mkMessage "vad_stop" []) f.

(** [on_realtime_transcription_update(text)] *)
Definition on_realtime_transcription_update (text : string) (f : State) : State :=
  if main_loop f && negb (String.eqb text "")
  then broadcast (Srv.mkMessage "partial" [("text", text)]) f
  else f.

(** [on_realtime_transcription_stabilized(text)] *)
Definition on_realtime_transcription_stabilized (text : string) (f : State) : State :=
  if main_loop f && negb (String.eqb text "")
  then broadcast (Srv.mkMessage "realtime" [("text", text)]) f
  else f.

(** The server callback the wrapper invokes for one of its events: the
    wrapper is built with the three callbacks above, around a recorder
    whose [on_vad_detect_start] is the one above. *)
Definition react (e : Event) (f : State) : State :=
  match e with
  | CallSpeechStart => on_speech_start f
  | CallSpeechEnd => on_speech_end f
  | CallSpeechInterrupted r => on_speech_interrupted r f
  | CallOriginalVadStart => on_vad_detect_start f
  | _ => f
  end.

(** The callbacks run in the order the wrapper invoked them. *)
Definition replay (tr : list Event) (f : State) : State :=
  fold_left (fun st e => react e st) tr f.

End Floor.

(* ================================================================== *)
(** * enhanced_assistant_server.py: EnhancedAssistant *)
(* ================================================================== *)

Module Enh.

(** Calls made on the [TextToAudioStream]. *)
Inductive TtsCall : Type :=
| Feed (text : string)             (* self.tts_stream.feed(text) *)
| PlayAsync                        (* self.tts_stream.play_async() *)
| StopStream.                      (* self.tts_stream.stop() *)

(** The attributes of an [EnhancedAssistant] after [initialize], with what
    it passed to [send_to_clients] and to the stream, and the
    [process_response] coroutines it scheduled on the event loop and that
    have not run yet.  [llm_client] is [false] when no API key was set. *)
Record Assistant : Type := mkAssistant {
  processor : bool;
  llm_client : bool;
  main_loop : bool;
  turn_detector : Turn.TurnDetector;
  conversation_history : list (string * string);
  is_speaking : bool;
  last_transcript : string;
  sent : list Srv.Message;
  tts_stream : list TtsCall;
  scheduled : list string
}.

Definition set_history (h : list (string * string)) (a : Assistant) : Assistant :=
  mkAssistant (processor a) (llm_client a) (main_loop a) (turn_detector a) h
              (is_speaking a) (last_transcript a) (sent a) (tts_stream a) (scheduled a).

Definition set_is_speaking (b : bool) (a : Assistant) : Assistant :=
  mkAssistant (processor a) (llm_client a) (main_loop a) (turn_detector a)
              (conversation_history a) b (last_transcript a) (sent a) (tts_stream a)
              (scheduled a).

Definition set_last_transcript (t : string) (a : Assistant) : Assistant :=
  mkAssistant (processor a) (llm_client a) (main_loop a) (turn_detector a)
              (conversation_history a) (is_speaking a) t (sent a) (tts_stream a)
              (scheduled a).

Definition set_turn_detector (d : Turn.TurnDetector) (a : Assistant) : Assistant :=
  mkAssistant (processor a) (llm_client a) (main_loop a) d
              (conversation_history a) (is_speaking a) (last_transcript a) (sent a)
              (tts_stream a) (scheduled a).

Definition set_scheduled (q : list string) (a : Assistant) : Assistant :=
  mkAssistant (processor a) (llm_client a) (main_loop a) (turn_detector a)
              (conversation_history a) (is_speaking a) (last_transcript a) (sent a)
              (tts_stream a) q.

(** [await self.send_to_clients(message)] *)
Definition send_to_clients (m : Srv.Message) (a : Assistant) : Assistant :=
  mkAssistant (processor a) (llm_client a) (main_loop a) (turn_detector a)
              (conversation_history a) (is_speaking a) (last_transcript a)
              (sent a ++ [m]) (tts_stream a) (scheduled a).

(** [if self.main_loop: asyncio.run_coroutine_threadsafe(self.send_to_clients(..), ..)] *)
Definition broadcast (m : Srv.Message) (a : Assistant) : Assistant :=
  if main_loop a then send_to_clients m a else a.

Definition stream_call (c : TtsCall) (a : Assistant) : Assistant :=
  mkAssistant (processor a) (llm_client a) (main_loop a) (turn_detector a)
              (conversation_history a) (is_speaking a) (last_transcript a) (sent a)
              (tts_stream a ++ [c]) (scheduled a).

(** [on_tts_start(self)] *)
Definition on_tts_start (a : Assistant) : Assistant :=
  broadcast (Srv.mkMessage "assistant_speaking" [("status", "start")])
            (set_is_speaking true a).

(** [on_tts_stop(self)] *)
Definition on_tts_stop (a : Assistant) : Assistant :=
  broadcast (Srv.mkMessage "assistant_speaking" [("status", "stop")])
            (set_is_speaking false a).

(** [on_vad_start(self)], [now] being [time.time()] *)
Definition on_vad_start (now : float) (a : Assistant) : Assistant :=
  let a1 := set_turn_detector (Turn.on_speech_start now (turn_detector a)) a in
  if is_speaking a1 then stream_call StopStream a1 else a1.

(** [on_vad_stop(self)] *)
Definition on_vad_stop (a : Assistant) : Assistant :=
  set_turn_detector (Turn.on_speech_end (turn_detector a)) a.

(** [on_partial_transcription(self, text)] *)
Definition on_partial_transcription (text : string) (a : Assistant) : Assistant :=
  if negb (String.eqb text "") && main_loop a
  then send_to_clients (Srv.mkMessage "partial_transcript" [("text", text)]) a
  else a.

(** One round of [process_audio_loop], for the [text] that
    [self.recorder.text()] returned at time [timestamp].  Scheduling the
    reply needs the event loop: without one,
    [asyncio.run_coroutine_threadsafe] raises and the [except] branch of the
    round swallows it. *)
Definition process_audio_loop (text timestamp : string) (a : Assistant) : Assistant :=
  if negb (String.eqb text "") && negb (String.eqb text (last_transcript a)) then
    let a1 := set_last_transcript text a in
    let a2 := broadcast (Srv.mkMessage "user_message"
                           [("text", text); ("timestamp", timestamp)]) a1 in
    if processor a2 && llm_client a2 then
      let a3 := set_history (conversation_history a2 ++ [("user", text)]) a2 in
      if main_loop a3 then set_scheduled (scheduled a3 ++ [text]) a3 else a3
    else a2
  else a.

(** The [messages] that [ConcurrentProcessor.generate_response] builds. *)
Definition messages_for (text : string) (conversation_history : list (string * string))
  : list (string * string) :=
  Srv.last_n 10 conversation_history ++ [("user", text)].

Section Generator.

(** [self.llm_client.messages.create(.., messages=messages)] followed by
    [response.content[0].text]; [None] when it raises. *)
Variable llm : list (string * string) -> option string.

(** [ConcurrentProcessor.generate_response(text, conversation_history)];
    nothing in it catches: [None] is the exception reaching the caller. *)
Definition generate_response (text : string)
    (conversation_history : list (string * string)) : option string :=
  llm (messages_for text conversation_history).

(** [process_response(self, text)], [timestamp] being the clock when the
    reply is sent. *)
Definition process_response (text timestamp : string) (a : Assistant) : Assistant :=
  match generate_response text (conversation_history a) with
  | Some response =>
      let a1 := set_history (conversation_history a ++ [("assistant", response)]) a in
      let a2 := send_to_clients (Srv.mkMessage "assistant_message"
                                   [("text", response); ("timestamp", timestamp)]) a1 in
      (* self.processor.stream_tts(response) *)
      stream_call PlayAsync (stream_call (Feed response) a2)
  | None => a                                      (* except Exception: print *)
  end.

(** The event loop runs the oldest scheduled [process_response], here in
    one piece. *)
Definition run_scheduled (timestamp : string) (a : Assistant) : Assistant :=
  match scheduled a with
  | [] => a
  | text :: rest => process_response text timestamp (set_scheduled rest a)
  end.

End Generator.

(** [handle_control_message(self, data, websocket)]: the new state and the
    reply sent to the one client, if any. *)
Definition handle_control_message (msg_type : option string) (a : Assistant)
  : option Srv.Message * Assistant :=
  match msg_type with
  | Some "ping" => (Some (Srv.mkMessage "pong" []), a)
  | Some "stop_speaking" => (None, stream_call StopStream a)
  | Some "clear_history" => (None, set_history [] a)
  | _ => (None, a)
  end.

End Enh.

(* ================================================================== *)
(** * Further vocabulary *)
(* ================================================================== *)

Module Obs2.

Import Tts.

(** A history made of exchanges: a user entry followed by an assistant
    entry, again and again. *)
Fixpoint paired (h : list (string * string)) : bool :=
  match h with
  | [] => true
  | (r1, _) :: rest =>
      match rest with
      | (r2, _) :: rest' => String.eqb r1 "user" && String.eqb r2 "assistant" && paired rest'
      | [] => false
      end
  end.

(** The sentence loop of the interruptible server, sentence after
    sentence; each sentence comes with the way the model behaves when it is
    handled, its two clock readings and the id [speak] draws. *)
Definition sentences
    (inputs : list ((list (string * string) -> option string)
                    * string * string * string * string))
    (v : Srv.Server) : Srv.Server :=
  fold_left (fun st i =>
               let '(llm, sentence, ts1, ts2, uuid) := i in
               Srv.on_full_sentence llm sentence ts1 ts2 uuid st)
            inputs v.

(** The worker is somewhere between [self.is_speaking = True] and the
    statement that resets it. *)
Definition in_round (pc : Pc) : bool :=
  match pc with
  | AtExcept => true
  | _ => Obs.in_flight pc
  end.

(** The chunks the worker cuts from what is left to play: the first
    [chunk_size * 2] bytes, then the same on the rest. *)
Fixpoint chop (fuel : nat) (rest : list byte) : list (list byte) :=
  match fuel with
  | O => []
  | S f =>
      match rest with
      | [] => []
      | _ :: _ => firstn (chunk_size * 2) rest :: chop f (skipn (chunk_size * 2) rest)
      end
  end.

(** The audio items of a stream, in order. *)
Definition audio_items (items : list Chunk) : list (list byte) :=
  map chunk_data (filter (fun c => String.eqb (chunk_type c) "audio") items).

(** The events an [EnhancedAssistant] reacts to: the callbacks of the
    recorder and of the stream, a sentence from [recorder.text()], a
    scheduled [process_response] getting its turn on the event loop, and a
    control message. *)
Inductive Happening : Type :=
| VadStart (now : float)
| VadStop
| TtsStart
| TtsStop
| Partial (text : string)
| Sentence (text timestamp : string)
| Respond (timestamp : string)
| Control (msg_type : option string).

Definition happen (llm : list (string * string) -> option string)
    (e : Happening) (a : Enh.Assistant) : Enh.Assistant :=
  match e with
  | VadStart now => Enh.on_vad_start now a
  | VadStop => Enh.on_vad_stop a
  | TtsStart => Enh.on_tts_start a
  | TtsStop => Enh.on_tts_stop a
  | Partial text => Enh.on_partial_transcription text a
  | Sentence text timestamp => Enh.process_audio_loop text timestamp a
  | Respond timestamp => Enh.run_scheduled llm timestamp a
  | Control msg_type => snd (Enh.handle_control_message msg_type a)
  end.

Definition happenings (llm : list (string * string) -> option string)
    (es : list Happening) (a : Enh.Assistant) : Enh.Assistant :=
  fold_left (fun st e => happen llm e st) es a.

(** Whether the user speaks, going by the VAD events alone. *)
Definition vad_says (es : list Happening) (speaking : bool) : bool :=
  fold_left (fun b e => match e with
                        | VadStart _ => true
                        | VadStop => false
                        | _ => b
                        end) es speaking.

End Obs2.

Import Tts Obs.

(* ================================================================== *)
(** * Properties *)
(* ================================================================== *)

(** ** Shared lemmas on the worker *)

Lemma dequeued_app (a b : list Event) :
  dequeued (a ++ b) = dequeued a ++ dequeued b.
Proof.
  induction a as [|e a IH]; simpl; [reflexivity|].
  destruct e; simpl; rewrite ?IH; reflexivity.
Qed.

Lemma ticks_plus (E : Engine) (n m : nat) (s : Sys) :
  ticks E (n + m) s = ticks E m (ticks E n s).
Proof.
  revert s; induction n as [|n IH]; intros s; simpl; [reflexivity|apply IH].
Qed.

Lemma slice_positive : 0 < chunk_size * 2.
Proof. unfold chunk_size; lia. Qed.

(* Slices are cut by [firstn] and [skipn]; their size stays folded in proofs. *)
Opaque chunk_size.

Section WorkerFacts.

Variable E : Engine.

(** Every task taken from the queue is logged once, and the tasks are taken
    from the front: what has been served followed by what is pending never
    changes while the worker runs alone. *)
Lemma tick_served (s : Sys) :
  served (tick E s) ++ pending (tick E s) = served s ++ pending s.
Proof.
  destruct s as [o pc tr]; unfold served, pending, tick; simpl wpc; simpl obj.
  destruct pc as [ |t|t|t|t|p r a|a|d|rest|c| | | | ]; simpl;
    try reflexivity.
  - destruct (audio_queue o) as [|[t|] q] eqn:Hq; simpl; rewrite ?Hq;
      try reflexivity.
    rewrite app_nil_r, <- app_assoc; reflexivity.
  - destruct (on_speech_start o); simpl;
      destruct (communicate E (text t) (voice o)); simpl;
      rewrite ?dequeued_app; simpl; rewrite ?app_nil_r; reflexivity.
  - destruct p as [|c p]; [destruct r; [|destruct (from_mp3 E (List.concat a))]|
                           destruct (should_stop o)];
      simpl; rewrite ?dequeued_app; simpl; rewrite ?app_nil_r; reflexivity.
  - destruct (truthy_bytes a); [destruct (should_stop o)|]; reflexivity.
  - destruct (stream o); [|destruct (device_open E)]; reflexivity.
  - destruct rest as [|b r]; [reflexivity|].
    destruct (should_stop o); [reflexivity|].
    destruct (stream o) as [[|]|]; try reflexivity.
    destruct (device_write E _); reflexivity.
  - destruct (c && on_speech_end o); simpl;
      rewrite ?dequeued_app; simpl; rewrite ?app_nil_r; reflexivity.
  - rewrite dequeued_app; simpl; rewrite !app_nil_r; reflexivity.
Qed.

Lemma skipn_shorter {A : Type} (n : nat) (l : list A) :
  0 < n -> l <> [] -> List.length (skipn n l) < List.length l.
Proof.
  intros Hn Hl. rewrite length_skipn.
  destruct l; [congruence|]. cbn [List.length]. lia.
Qed.

Lemma blen_truthy (a : option (list byte)) (d : list byte) :
  truthy_bytes a = Some d -> blen a = List.length d.
Proof. unfold blen; intros ->; reflexivity. Qed.

(** Each statement brings the worker closer to rest. *)
Lemma tick_decreases (s : Sys) :
  quiescent s = false -> work E (tick E s) < work E s.
Proof.
  destruct s as [o pc tr]; unfold quiescent, work, tick; simpl wpc; simpl obj.
  destruct pc as [ |t|t|t|t|p r a|a|d|rest|c| | | | ]; simpl; intros Hq;
    try lia; try discriminate.
  - destruct (audio_queue o) as [|[t|] q]; simpl; [discriminate|lia|lia].
  - unfold task_work.
    destruct (on_speech_start o); simpl;
      destruct (communicate E (text t) (voice o)) as [items raises]; simpl; lia.
  - destruct p as [|c p].
    + destruct r; simpl; [unfold blen; simpl; lia|].
      unfold generated; simpl.
      destruct (from_mp3 E (List.concat a)); simpl; [lia|unfold blen; simpl; lia].
    + destruct (should_stop o); simpl; [unfold blen at 1; simpl; lia|].
      unfold generated; simpl. lia.
  - destruct (truthy_bytes a) as [d|] eqn:Ha; [|simpl; lia].
    rewrite (blen_truthy _ _ Ha).
    destruct (should_stop o); simpl; lia.
  - destruct (stream o); [|destruct (device_open E)]; simpl; lia.
  - destruct rest as [|b r]; [simpl; lia|].
    destruct (should_stop o); [simpl; lia|].
    destruct (stream o) as [[|]|]; try (simpl; lia).
    destruct (device_write E _); [|simpl; lia].
    assert (H : List.length (skipn (chunk_size * 2) (b :: r)) < List.length (b :: r)).
    { apply skipn_shorter; [apply slice_positive|discriminate]. }
    simpl. simpl in H. lia.
  - destruct (c && on_speech_end o); simpl; lia.
Qed.

Lemma work_zero (s : Sys) : work E s = 0 -> quiescent s = true.
Proof.
  destruct s as [o pc tr]; unfold quiescent, work; simpl wpc; simpl obj.
  destruct pc; simpl; try lia; try reflexivity.
  destruct (audio_queue o) as [|[t|] q]; simpl; [reflexivity|lia|lia].
Qed.

(** Left alone, the worker comes to rest within [work] statements. *)
Lemma drain_quiescent (fuel : nat) (s : Sys) :
  work E s <= fuel -> quiescent (drain E fuel s) = true.
Proof.
  revert s; induction fuel as [|f IH]; intros s Hw; simpl.
  - apply work_zero; lia.
  - destruct (quiescent s) eqn:Hq; [exact Hq|].
    apply IH. pose proof (tick_decreases s Hq). lia.
Qed.

Lemma drain_served (fuel : nat) (s : Sys) :
  served (drain E fuel s) ++ pending (drain E fuel s) = served s ++ pending s.
Proof.
  revert s; induction fuel as [|f IH]; intros s; simpl; [reflexivity|].
  destruct (quiescent s); [reflexivity|].
  rewrite IH. apply tick_served.
Qed.

Lemma quiescent_rest (s : Sys) :
  quiescent s = true -> owed (wpc s) = [] /\ pending s = [].
Proof.
  destruct s as [o pc tr]; unfold quiescent, pending; simpl wpc; simpl obj.
  destruct pc; try discriminate; simpl; [|auto].
  destruct (audio_queue o); [auto|discriminate].
Qed.

(** The worker takes the tasks in the order they stand in the queue, up to
    the first sentinel. *)
Lemma drain_order (s : Sys) :
  let s' := drain E (work E s) s in
  quiescent s' = true /\
  dequeued (trace s') = served s ++ pending s.
Proof.
  cbv zeta.
  pose proof (drain_quiescent (work E s) s (Nat.le_refl _)) as Hq.
  split; [exact Hq|].
  rewrite <- (drain_served (work E s) s).
  destruct (quiescent_rest _ Hq) as [Ho Hp].
  unfold served; rewrite Ho, Hp, !app_nil_r; reflexivity.
Qed.

End WorkerFacts.

(** ** Shared lemmas on the front end *)

(** What [interrupt] leaves alone. *)
Lemma interrupt_frame (r : InterruptReason) (s : Sys) :
  wpc (interrupt r s) = wpc s /\
  audio_queue (obj (interrupt r s)) = audio_queue (obj s) /\
  is_speaking (obj (interrupt r s)) = is_speaking (obj s) /\
  current_task (obj (interrupt r s)) = current_task (obj s) /\
  dequeued (trace (interrupt r s)) = dequeued (trace s).
Proof.
  destruct s as [o pc tr]; unfold interrupt; simpl.
  destruct (is_speaking o) eqn:Hs; simpl; [|auto].
  destruct (on_speech_interrupted o); simpl;
    rewrite ?dequeued_app; simpl; rewrite ?app_nil_r; auto.
Qed.

(** [speak] puts the task it builds at the back of the queue, whatever its
    text and priority, and returns its id. *)
Lemma call_enqueues (c : SpeakCall) (s : Sys) :
  fst (call c s) = task_id (task_of c) /\
  audio_queue (obj (snd (call c s))) = audio_queue (obj s) ++ [Some (task_of c)] /\
  wpc (snd (call c s)) = wpc s /\
  dequeued (trace (snd (call c s))) = dequeued (trace s).
Proof.
  destruct c as [tx id p md u]; unfold call, speak, task_of; simpl.
  split; [reflexivity|].
  destruct (current_task (obj s)) as [cur|]; [|auto].
  destruct (is_speaking (obj s) && (priority cur <? p)%Z); [|auto].
  match goal with
  | |- context [interrupt ?r ?x] =>
      destruct (interrupt_frame r x) as (Hpc & Hq & _ & _ & Hd)
  end.
  simpl; rewrite Hq, Hpc, Hd; simpl.
  rewrite dequeued_app; simpl; rewrite app_nil_r; auto.
Qed.

Lemma speak_all_enqueues (calls : list SpeakCall) (s : Sys) :
  audio_queue (obj (speak_all calls s))
    = audio_queue (obj s) ++ map Some (map task_of calls) /\
  wpc (speak_all calls s) = wpc s /\
  dequeued (trace (speak_all calls s)) = dequeued (trace s).
Proof.
  revert s; induction calls as [|c calls IH]; intros s.
  - simpl; rewrite app_nil_r; auto.
  - change (speak_all (c :: calls) s) with (speak_all calls (snd (call c s))).
    destruct (IH (snd (call c s))) as (Hq & Hpc & Hd).
    destruct (call_enqueues c s) as (_ & Hq1 & Hpc1 & Hd1).
    rewrite Hq, Hpc, Hd, Hq1, Hpc1, Hd1, <- app_assoc; auto.
Qed.

Lemma before_sentinel_tasks (ts : list AudioTask) :
  before_sentinel (map Some ts) = ts.
Proof. induction ts as [|t ts IH]; simpl; [|rewrite IH]; reflexivity. Qed.

Lemma shutdown_frame (s : Sys) :
  audio_queue (obj (shutdown s)) = [None] /\
  wpc (shutdown s) = wpc s /\
  dequeued (trace (shutdown s)) = dequeued (trace s).
Proof.
  unfold shutdown, clear_queue.
  destruct (interrupt_frame SHUTDOWN s) as (Hpc & _ & _ & _ & Hd).
  set (s1 := interrupt SHUTDOWN s) in *.
  destruct s1 as [o pc tr]; simpl in *.
  destruct (stream o); simpl; auto.
Qed.

(** ** C1: order of the pending tasks *)

(** C1, as stated, fails.  The four tasks of P2, priorities 3, 1, 5, 1, are
    taken by the worker in the order they arrived (a, b, c, d), not in the
    order (priority descending, arrival ascending), which is c, a, b, d. *)
Lemma C1_priority_order_refuted :
  let s1 := speak_all p2_calls fresh in
  let s2 := drain demo_engine (work demo_engine s1) s1 in
  map priority (before_sentinel (audio_queue (obj s1))) = [3; 1; 5; 1]%Z /\
  dequeued (trace s2) = ["a"; "b"; "c"; "d"] /\
  map task_id (spec_pending_order (map task_of p2_calls)) = ["c"; "a"; "b"; "d"] /\
  dequeued (trace s2) <> map task_id (spec_pending_order (map task_of p2_calls)).
Proof.
  vm_compute. repeat split; discriminate.
Qed.

(** C1, amended: the pending collection is a plain FIFO queue.  For every
    sequence of [speak] calls on a wrapper whose worker waits on an empty
    queue, the queue holds the tasks in arrival order, whatever their
    priorities, and the worker, left alone, comes to rest having taken them
    in exactly that order. *)
Theorem C1_dequeue_in_arrival_order (E : Engine) (calls : list SpeakCall) (s : Sys) :
  wpc s = AtGet ->
  audio_queue (obj s) = [] ->
  let s1 := speak_all calls s in
  let s2 := drain E (work E s1) s1 in
  audio_queue (obj s1) = map Some (map task_of calls) /\
  quiescent s2 = true /\
  dequeued (trace s2) = dequeued (trace s) ++ map task_id (map task_of calls).
Proof.
  intros Hpc Hq s1 s2.
  destruct (speak_all_enqueues calls s) as (Hq1 & Hpc1 & Hd1).
  fold s1 in Hq1, Hpc1, Hd1. rewrite Hq in Hq1; simpl in Hq1.
  destruct (drain_order E s1) as [Hrest Hord]. fold s2 in Hrest, Hord.
  repeat split; [exact Hq1|exact Hrest|].
  rewrite Hord. unfold served, pending.
  rewrite Hpc1, Hpc, Hq1, Hd1, before_sentinel_tasks; simpl.
  rewrite app_nil_r; reflexivity.
Qed.

Lemma C1_dequeue_in_arrival_order_witness :
  let s1 := speak_all p2_calls fresh in
  let s2 := drain demo_engine (work demo_engine s1) s1 in
  wpc fresh = AtGet /\ audio_queue (obj fresh) = [] /\
  audio_queue (obj s1) = map Some (map task_of p2_calls) /\
  quiescent s2 = true /\
  dequeued (trace s2) = dequeued (trace fresh) ++ map task_id (map task_of p2_calls).
Proof.
  split; [reflexivity|]. split; [reflexivity|].
  apply (C1_dequeue_in_arrival_order demo_engine p2_calls fresh); reflexivity.
Defined.

(** ** C2: voice activity while a task is in flight *)

Lemma interrupt_config (r : InterruptReason) (s : Sys) :
  config (obj (interrupt r s)) = config (obj s).
Proof.
  destruct s as [o pc tr]; unfold interrupt; simpl.
  destruct (is_speaking o); simpl; [|reflexivity].
  destruct (on_speech_interrupted o); reflexivity.
Qed.

Lemma call_frame (c : SpeakCall) (s : Sys) :
  config (obj (snd (call c s))) = config (obj s) /\
  is_speaking (obj (snd (call c s))) = is_speaking (obj s) /\
  current_task (obj (snd (call c s))) = current_task (obj s).
Proof.
  destruct c as [tx id p md u]; unfold call, speak; simpl.
  destruct (current_task (obj s)) as [cur|] eqn:Hc; [|simpl; rewrite Hc; auto].
  destruct (is_speaking (obj s) && (priority cur <? p)%Z);
    [|simpl; rewrite Hc; auto].
  match goal with
  | |- context [interrupt ?r ?x] =>
      pose proof (interrupt_config r x) as Hcfg;
      destruct (interrupt_frame r x) as (_ & _ & Hs & Hcur & _)
  end.
  unfold config in *; simpl in *.
  injection Hcfg as -> -> -> -> -> ->. rewrite Hs, Hcur, Hc; auto.
Qed.

Lemma shutdown_keeps (s : Sys) :
  config (obj (shutdown s)) = config (obj s) /\
  is_speaking (obj (shutdown s)) = is_speaking (obj s) /\
  current_task (obj (shutdown s)) = current_task (obj s).
Proof.
  unfold shutdown, clear_queue.
  pose proof (interrupt_config SHUTDOWN s) as Hcfg.
  destruct (interrupt_frame SHUTDOWN s) as (_ & _ & Hs & Hcur & _).
  set (s1 := interrupt SHUTDOWN s) in *.
  destruct s1 as [o pc tr]; unfold config in *; simpl in *.
  destruct (stream o); simpl; auto.
Qed.

Lemma voice_activity_keeps (s : Sys) :
  config (obj (voice_activity_start s)) = config (obj s) /\
  wpc (voice_activity_start s) = wpc s /\
  is_speaking (obj (voice_activity_start s)) = is_speaking (obj s) /\
  current_task (obj (voice_activity_start s)) = current_task (obj s).
Proof.
  unfold voice_activity_start, on_vad_interrupt.
  destruct (recorder (obj s)); [|auto].
  pose proof (interrupt_config VAD_DETECTED s) as Hcfg.
  destruct (interrupt_frame VAD_DETECTED s) as (Hpc & _ & Hs & Hcur & _).
  destruct (_original_on_vad_start (obj (interrupt VAD_DETECTED s))); simpl; auto.
Qed.

Lemma tick_config (E : Engine) (s : Sys) :
  config (obj (tick E s)) = config (obj s).
Proof.
  destruct s as [o pc tr]; unfold tick; simpl wpc.
  destruct pc as [ |t|t|t|t|p r a|a|d|rest|c| | | | ]; simpl;
    try reflexivity.
  - destruct (audio_queue o) as [|[t|] q]; reflexivity.
  - destruct (on_speech_start o); simpl;
      destruct (communicate E (text t) (voice o)); reflexivity.
  - destruct p as [|c p]; [destruct r; [reflexivity|]|].
    + destruct (from_mp3 E (List.concat a)); reflexivity.
    + destruct (should_stop o); reflexivity.
  - destruct (truthy_bytes a); [destruct (should_stop o)|]; reflexivity.
  - destruct (stream o); [|destruct (device_open E)]; reflexivity.
  - destruct rest as [|b r]; [reflexivity|].
    destruct (should_stop o); [reflexivity|].
    destruct (stream o) as [[|]|]; try reflexivity.
    destruct (device_write E _); reflexivity.
  - destruct (c && on_speech_end o); reflexivity.
Qed.

Ltac split_tick :=
  repeat match goal with
         | |- context [match ?x with _ => _ end] => destruct x; simpl
         | |- context [if ?x then _ else _] => destruct x; simpl
         end.

Lemma tick_owns (E : Engine) (s : Sys) :
  worker_owns s -> worker_owns (tick E s).
Proof.
  destruct s as [o pc tr]; unfold worker_owns, tick; simpl wpc; simpl obj.
  destruct pc as [ |t|t|t|t|p r a|au|d|rest|c| | | | ];
    try (destruct au as [[|b0 l0]|]); simpl; intros (H1 & H2 & H3);
    split_tick; repeat split; intros; try discriminate;
    try (apply H1; reflexivity); try (apply H2; reflexivity); auto;
    match goal with
    | H : AtOpenStream _ = AtOpenStream _ |- _ => injection H as <-; discriminate
    end.
Qed.

Lemma act_owns (E : Engine) (a : Action) (s : Sys) :
  worker_owns s -> worker_owns (act E a s).
Proof.
  unfold worker_owns; destruct a as [tx id p md u|r| | | | ]; cbn [act].
  - change (speak tx id p md u s) with (call (mkCall tx id p md u) s).
    pose proof (call_enqueues (mkCall tx id p md u) s) as (_ & _ & Hpc & _).
    pose proof (call_frame (mkCall tx id p md u) s) as (_ & Hs & Hc).
    rewrite Hpc, Hs, Hc; auto.
  - destruct (interrupt_frame r s) as (Hpc & _ & Hs & Hc & _).
    rewrite Hpc, Hs, Hc; auto.
  - auto.
  - destruct (shutdown_frame s) as (_ & Hpc & _).
    destruct (shutdown_keeps s) as (_ & Hs & Hc).
    rewrite Hpc, Hs, Hc; auto.
  - destruct (voice_activity_keeps s) as (_ & Hpc & Hs & Hc).
    rewrite Hpc, Hs, Hc; auto.
  - apply tick_owns.
Qed.

Lemma act_config (E : Engine) (a : Action) (s : Sys) :
  config (obj (act E a s)) = config (obj s).
Proof.
  destruct a as [tx id p md u|r| | | | ]; cbn [act].
  - apply (call_frame (mkCall tx id p md u) s).
  - apply interrupt_config.
  - reflexivity.
  - apply shutdown_keeps.
  - apply voice_activity_keeps.
  - apply tick_config.
Qed.

(** Both hold in every state a schedule can reach. *)
Lemma run_keeps (E : Engine) (sched : list Action) (s : Sys) :
  worker_owns s ->
  worker_owns (run E sched s) /\ config (obj (run E sched s)) = config (obj s).
Proof.
  revert s; induction sched as [|a sched IH]; intros s H; [auto|].
  change (run E (a :: sched) s) with (run E sched (act E a s)).
  destruct (IH (act E a s) (act_owns E a s H)) as [Ho Hc].
  rewrite Hc, act_config; auto.
Qed.

Lemma skipn_own {A : Type} (tr x : list A) :
  skipn (List.length tr) (tr ++ x) = x.
Proof. rewrite skipn_app, skipn_all, Nat.sub_diag; reflexivity. Qed.

(** Run the innermost worker statement on an explicit state, with [rw] to
    decide the tests it meets. *)
Ltac step rw :=
  match goal with
  | |- context [tick ?E (mkSys ?o ?pc ?tr)] =>
      let t := eval cbv beta iota delta [tick wpc obj trace]
                 in (tick E (mkSys o pc tr)) in
      change (tick E (mkSys o pc tr)) with t
  end;
  simpl; rw; simpl; unfold goto, upd, emit; cbn [obj wpc trace].

(** Run [n] statements of a round. *)
Ltac run_round n rw :=
  exists n; cbn [ticks]; unfold added;
  repeat (step rw);
  rewrite <- ?app_assoc, ?skipn_own, ?skipn_all; simpl;
  intuition (try discriminate).

(** Run [n] statements of a round on two engines side by side. *)
Ltac run_both n rw :=
  exists n; cbn [ticks]; unfold added;
  repeat (step rw);
  rewrite <- ?app_assoc, ?skipn_own, ?skipn_all; simpl;
  repeat split; try lia; try reflexivity; intuition (try discriminate).

(** Once the stop flag is raised in a round that has cleared it and has a
    slice left to write, the worker is back at [get()] within five
    statements, however much audio remains, and reports no end.  It asks the
    device for no write on the way: a worker on a device that answers writes
    differently, [E'], runs through the same states. *)
Lemma interrupted_round_ends (E E' : Engine) (s : Sys) :
  should_stop (obj s) = true ->
  stoppable (wpc s) = true ->
  wpc s <> AtOpenStream [] ->
  communicate E' = communicate E ->
  from_mp3 E' = from_mp3 E ->
  device_open E' = device_open E ->
  exists n,
    n <= 5 /\
    wpc (ticks E n s) = AtGet /\
    is_speaking (obj (ticks E n s)) = false /\
    ~ In CallSpeechEnd (added s (ticks E n s)) /\
    ticks E' n s = ticks E n s.
Proof.
  destruct s as [o pc tr]; simpl; intros Hstop Hfl Ho Hc Hf Hd.
  destruct pc as [ |t|t|t|t|p r a|a|d|rest|c| | | | ]; try discriminate.
  - destruct (communicate E (text t) (voice o)) as [[|c p] r] eqn:Hcm;
      [destruct r|].
    + destruct (on_speech_start o) eqn:Hcb;
        run_both 5 ltac:(rewrite ?Hc, ?Hf, ?Hd, ?Hstop, ?Hcb, ?Hcm).
    + destruct (from_mp3 E []) as [[|b l]|] eqn:Hdec;
        destruct (on_speech_start o) eqn:Hcb;
        run_both 5 ltac:(rewrite ?Hc, ?Hf, ?Hd, ?Hstop, ?Hcb, ?Hcm, ?Hdec).
    + destruct (on_speech_start o) eqn:Hcb;
        run_both 5 ltac:(rewrite ?Hc, ?Hf, ?Hd, ?Hstop, ?Hcb, ?Hcm).
  - destruct p as [|c p]; [destruct r|].
    + run_both 4 ltac:(rewrite ?Hc, ?Hf, ?Hd, ?Hstop).
    + destruct (from_mp3 E (List.concat a)) as [[|b l]|] eqn:Hdec;
        run_both 4 ltac:(rewrite ?Hc, ?Hf, ?Hd, ?Hstop, ?Hdec).
    + run_both 4 ltac:(rewrite ?Hc, ?Hf, ?Hd, ?Hstop).
  - destruct (truthy_bytes a) eqn:Ha;
      run_both 3 ltac:(rewrite ?Hc, ?Hf, ?Hd, ?Hstop, ?Ha).
  - destruct d as [|b d]; [congruence|].
    destruct (stream o) as [st|] eqn:Hst; [|destruct (device_open E) eqn:Hop].
    + run_both 5 ltac:(rewrite ?Hc, ?Hf, ?Hd, ?Hstop, ?Hst).
    + run_both 5 ltac:(rewrite ?Hc, ?Hf, ?Hd, ?Hstop, ?Hst, ?Hop).
    + run_both 2 ltac:(rewrite ?Hc, ?Hf, ?Hd, ?Hstop, ?Hst, ?Hop).
  - destruct rest as [|b r]; [discriminate|].
    run_both 4 ltac:(rewrite ?Hc, ?Hf, ?Hd, ?Hstop).
Qed.

(** The VAD callback tests [is_speaking] and nothing else.  In every state a
    schedule of calls and worker statements can reach with the worker between
    [self.is_speaking = True] and [self.is_speaking = False], the event
    raises the stop flag and reports the interruption with reason
    [VAD_DETECTED]; the priority of the task in flight, any integer, plays no
    part.  Where the round has cleared the flag and has a slice left to
    write, the worker then ends the round as [interrupted_round_ends] says. *)
Lemma voice_activity_raises_the_flag (E E' : Engine) (sched : list Action)
    (v : string) (cb_start cb_end cb_int orig : bool) :
  let s := run E sched (init v cb_start cb_end cb_int true orig) in
  let s' := voice_activity_start s in
  in_flight (wpc s) = true ->
  (exists t, current_task (obj s) = Some t) /\
  should_stop (obj s') = true /\
  trace s' = trace s ++ [LogInterrupt VAD_DETECTED]
               ++ (if cb_int then [CallSpeechInterrupted VAD_DETECTED] else [])
               ++ (if orig then [CallOriginalVadStart] else []) /\
  (stoppable (wpc s) = true ->
   communicate E' = communicate E ->
   from_mp3 E' = from_mp3 E ->
   device_open E' = device_open E ->
   exists n,
     n <= 5 /\
     wpc (ticks E n s') = AtGet /\
     is_speaking (obj (ticks E n s')) = false /\
     ~ In CallSpeechEnd (added s' (ticks E n s')) /\
     ticks E' n s' = ticks E n s').
Proof.
  intros s s' Hin.
  destruct (run_keeps E sched (init v cb_start cb_end cb_int true orig)) as [Ho Hc].
  { repeat split; discriminate. }
  fold s in Ho, Hc. unfold config in Hc; simpl in Hc.
  injection Hc as _ _ _ Hint Hrec Horig.
  assert (Hh : holds_task (wpc s) = true).
  { destruct (wpc s); simpl in *; try discriminate; auto. }
  destruct Ho as (Ho1 & Ho2 & Ho3).
  specialize (Ho1 Hin). specialize (Ho2 Hh).
  assert (Hflag : should_stop (obj s') = true /\
                  trace s' = trace s ++ [LogInterrupt VAD_DETECTED]
                      ++ (if cb_int then [CallSpeechInterrupted VAD_DETECTED] else [])
                      ++ (if orig then [CallOriginalVadStart] else [])).
  { subst s'. unfold voice_activity_start, on_vad_interrupt, interrupt.
    rewrite Hrec, Ho1.
    destruct s as [o pc tr]; simpl in *. rewrite Hint.
    destruct cb_int; simpl; rewrite Horig; destruct orig; simpl;
      rewrite <- ?app_assoc; auto. }
  destruct Hflag as [Hflag Htrace].
  split.
  { destruct (current_task (obj s)) as [t|]; [exists t; reflexivity|congruence]. }
  split; [exact Hflag|]. split; [exact Htrace|].
  intros Hst Hcm Hfm Hdo.
  destruct (voice_activity_keeps s) as (_ & Hpc & _). fold s' in Hpc.
  apply interrupted_round_ends; rewrite ?Hpc; auto.
  intros Hd. exact (Ho3 [] Hd eq_refl).
Qed.

(** C2: a voice-activity start that arrives between
    [self.is_speaking = True] and [self.should_stop.clear()] of a round is
    lost.  The task, of the greatest priority a 64-bit integer holds, is
    dequeued and [is_speaking] is set; the event raises the stop flag and
    reports the interruption with reason [VAD_DETECTED]; the next statement
    of the worker clears the flag, and the task is synthesized and played to
    its last slice, with [on_speech_end] at the end.  One statement earlier,
    with the task dequeued and [is_speaking] not yet set, the event reaches
    the recorder's own callback and nothing else, and the task is played to
    its end as well. *)
Theorem C2_voice_activity_lost_before_flag_clear :
  let t := mkTask "hello" "a" 9223372036854775807 [] in
  let taken :=
    run demo_engine
        [Speak "hello" (Some "a") 9223372036854775807 None "u"; Tick; Tick]
        fresh_vad in
  let flagged := tick demo_engine taken in
  let s' := voice_activity_start flagged in
  let s0' := voice_activity_start taken in
  (wpc flagged = AtClearStop t /\
   is_speaking (obj flagged) = true /\
   current_task (obj flagged) = Some t /\
   should_stop (obj s') = true /\
   added flagged s' = [LogInterrupt VAD_DETECTED;
                       CallSpeechInterrupted VAD_DETECTED;
                       CallOriginalVadStart] /\
   should_stop (obj (tick demo_engine s')) = false /\
   quiescent (drain demo_engine 20 s') = true /\
   added s' (drain demo_engine 20 s')
   = [LogProcessing "a"; CallSpeechStart; CallSpeechEnd]) /\
  (wpc taken = AtSetSpeaking t /\
   current_task (obj taken) = Some t /\
   should_stop (obj s0') = false /\
   added taken s0' = [CallOriginalVadStart] /\
   quiescent (drain demo_engine 20 s0') = true /\
   added s0' (drain demo_engine 20 s0')
   = [LogProcessing "a"; CallSpeechStart; CallSpeechEnd]).
Proof. vm_compute. repeat split. Qed.

(** ** C3: pre-emption by a new task *)



(** ** C5: what [speak] accepts *)

(** C5, as stated, fails: [speak] with empty text is not rejected.  The task
    with the empty text enters the queue and its id comes back. *)
Lemma C5_empty_text_refuted :
  let r := speak "" None 0 None "u1" fresh in
  fst r = "u1" /\
  audio_queue (obj (snd r)) = [Some (mkTask "" "u1" 0 [])].
Proof. vm_compute; split; reflexivity. Qed.

(** C5, amended: [speak] validates nothing.  Every call, with empty text or
    not, puts its task, text unchanged, at the back of the queue and returns
    the id of that task.  Empty text is stopped one level up, and silently:
    the control-message handler of the server drops a [speak] command whose
    text is empty or missing, without touching the wrapper and without a
    reply. *)
Theorem C5_speak_never_rejects (c : SpeakCall) (s : Sys) :
  fst (call c s) = task_id (task_of c) /\
  text (task_of c) = c_text c /\
  audio_queue (obj (snd (call c s))) = audio_queue (obj s) ++ [Some (task_of c)] /\
  (forall (p : option Z) (uuid : string) (v : Srv.Server),
      Srv.handle_control (Srv.mkControl (Some "speak") (Some "") p) uuid v = (None, v) /\
      Srv.handle_control (Srv.mkControl (Some "speak") None p) uuid v = (None, v)).
Proof.
  destruct (call_enqueues c s) as (Hid & Hq & _).
  repeat split; auto.
Qed.

(** ** C6: shutdown twice *)

(** C6: [shutdown] is a total function of the state, and calling it twice
    leaves the wrapper (flags, queue, current task, device handles) and its
    worker exactly where one call leaves them.  The second call differs from
    a no-op only in what it reports: if a task is still in flight, the
    interruption with reason [SHUTDOWN] is logged and reported once more. *)
Theorem C6_shutdown_idempotent (s : Sys) :
  obj (shutdown (shutdown s)) = obj (shutdown s) /\
  wpc (shutdown (shutdown s)) = wpc (shutdown s) /\
  trace (shutdown (shutdown s))
    = trace (shutdown s)
        ++ (if is_speaking (obj s)
            then LogInterrupt SHUTDOWN
                 :: (if on_speech_interrupted (obj s)
                     then [CallSpeechInterrupted SHUTDOWN] else [])
            else []).
Proof.
  destruct s as [o pc tr]; unfold shutdown, clear_queue, interrupt; simpl.
  destruct o as [v c1 c2 c3 sp st q cur sm pt rc og]; simpl.
  destruct sp; simpl; [destruct c3; simpl|]; destruct sm; simpl;
    rewrite <- ?app_assoc, ?app_nil_r; auto.
Qed.

(** ** C7: enqueue after shutdown *)

(** C7, as stated, fails: a [speak] call made after [shutdown] succeeds.
    It returns its id and its task is in the pending collection, behind the
    sentinel. *)
Lemma C7_enqueue_after_shutdown_refuted :
  let r := call (mkCall "late" (Some "late-1") 1 None "u") (shutdown fresh) in
  fst r = "late-1" /\
  audio_queue (obj (snd r)) = [None; Some (mkTask "late" "late-1" 1 [])].
Proof. vm_compute; split; reflexivity. Qed.

Lemma tick_sentinel (E : Engine) (s : Sys) :
  In None (audio_queue (obj s)) \/ wpc s = Stopped ->
  In None (audio_queue (obj (tick E s))) \/ wpc (tick E s) = Stopped.
Proof.
  destruct s as [o pc tr]; unfold tick; simpl wpc; simpl obj.
  destruct pc as [ |t|t|t|t|p r a|a|d|rest|c| | | | ]; simpl;
    intros [H|H]; try discriminate; auto;
    try (split_tick; auto; fail).
  destruct (audio_queue o) as [|[t|] q]; simpl in *;
    [destruct H|destruct H as [H|H]; [discriminate|auto]|auto].
Qed.

Lemma drain_sentinel (E : Engine) (fuel : nat) (s : Sys) :
  In None (audio_queue (obj s)) \/ wpc s = Stopped ->
  In None (audio_queue (obj (drain E fuel s))) \/ wpc (drain E fuel s) = Stopped.
Proof.
  revert s; induction fuel as [|f IH]; intros s H; simpl; [exact H|].
  destruct (quiescent s); [exact H|].
  apply IH, tick_sentinel, H.
Qed.

(** C7, amended: nothing gates [speak] after [shutdown].  Every later call
    still returns its id and appends its task, so the queue is the sentinel
    followed by the late tasks in arrival order.  What shutdown does ensure
    is that a worker left to run never takes them: from wherever it was it
    comes to rest stopped, having taken no task beyond the one it already
    held. *)
Theorem C7_late_tasks_queued_never_taken (E : Engine) (calls : list SpeakCall)
    (s : Sys) :
  let s1 := speak_all calls (shutdown s) in
  let s2 := drain E (work E s1) s1 in
  (forall c st, fst (call c st) = task_id (task_of c)) /\
  audio_queue (obj s1) = None :: map Some (map task_of calls) /\
  wpc s2 = Stopped /\
  dequeued (trace s2) = served s.
Proof.
  intros s1 s2.
  destruct (speak_all_enqueues calls (shutdown s)) as (Hq & Hpc & Hd).
  destruct (shutdown_frame s) as (Hq0 & Hpc0 & Hd0).
  fold s1 in Hq, Hpc, Hd. rewrite Hq0 in Hq; simpl in Hq.
  destruct (drain_order E s1) as [Hrest Hord]. fold s2 in Hrest, Hord.
  split; [intros c st; apply call_enqueues|].
  split; [exact Hq|]. split.
  - assert (Hs : In None (audio_queue (obj s2)) \/ wpc s2 = Stopped).
    { apply drain_sentinel. left. rewrite Hq. left; reflexivity. }
    destruct Hs as [Hs|Hs]; [|exact Hs].
    unfold quiescent in Hrest. destruct (wpc s2); try discriminate; auto.
    destruct (audio_queue (obj s2)); [destruct Hs|discriminate].
  - rewrite Hord. unfold served, pending.
    rewrite Hpc, Hpc0, Hq, Hd, Hd0. simpl.
    destruct (wpc s); rewrite app_nil_r; reflexivity.
Qed.

(** ** C4: the worker when synthesis fails *)

Lemma goto_goto (pc pc' : Pc) (s : Sys) : goto pc (goto pc' s) = goto pc s.
Proof. reflexivity. Qed.

(** With the stop flag clear, [_generate_audio] consumes the whole stream. *)
Lemma generate_run (E : Engine) (pending : list Chunk) (raises : bool) :
  forall (acc : list (list byte)) (s : Sys),
    wpc s = AtGenerate pending raises acc ->
    should_stop (obj s) = false ->
    ticks E (List.length pending) s
      = goto (AtGenerate [] raises (collect pending acc)) s.
Proof.
  induction pending as [|c pending IH]; intros acc s Hpc Hstop.
  - destruct s as [o pc tr]; simpl in *; subst pc; reflexivity.
  - cbn [List.length ticks collect].
    assert (Ht : tick E s
                 = goto (AtGenerate pending raises
                           (if String.eqb (chunk_type c) "audio"
                            then acc ++ [chunk_data c] else acc)) s).
    { destruct s as [o pc tr]; simpl in *; subst pc.
      unfold tick; simpl. rewrite Hstop; reflexivity. }
    rewrite Ht. erewrite IH; [apply goto_goto|reflexivity|exact Hstop].
Qed.

(** The first statements of a round, one by one. *)
Lemma tick_get (E : Engine) (o : Wrapper) (tr : list Event) (t : AudioTask)
    (q : list (option AudioTask)) :
  audio_queue o = Some t :: q ->
  tick E (mkSys o AtGet tr) = mkSys (set_audio_queue q o) (AtSetCurrent t) tr.
Proof. intros H; unfold tick; simpl; rewrite H; reflexivity. Qed.

Lemma tick_set_current (E : Engine) (o : Wrapper) (tr : list Event) (t : AudioTask) :
  tick E (mkSys o (AtSetCurrent t) tr)
  = mkSys (set_current_task (Some t) o) (AtSetSpeaking t) tr.
Proof. reflexivity. Qed.

Lemma tick_set_speaking (E : Engine) (o : Wrapper) (tr : list Event) (t : AudioTask) :
  tick E (mkSys o (AtSetSpeaking t) tr)
  = mkSys (set_is_speaking true o) (AtClearStop t) tr.
Proof. reflexivity. Qed.

Lemma tick_clear_stop (E : Engine) (o : Wrapper) (tr : list Event) (t : AudioTask) :
  tick E (mkSys o (AtClearStop t) tr)
  = mkSys (set_should_stop false o) (AtNotifyStart t) tr.
Proof. reflexivity. Qed.

Lemma tick_notify_start (E : Engine) (o : Wrapper) (tr : list Event) (t : AudioTask)
    (items : list Chunk) (raises : bool) :
  communicate E (text t) (voice o) = (items, raises) ->
  tick E (mkSys o (AtNotifyStart t) tr)
  = mkSys o (AtGenerate items raises [])
          (tr ++ [LogProcessing (task_id t)]
              ++ (if on_speech_start o then [CallSpeechStart] else [])).
Proof.
  intros H; unfold tick; simpl.
  destruct (on_speech_start o); simpl; rewrite H; unfold goto, emit; simpl;
    rewrite <- ?app_assoc, ?app_nil_r; reflexivity.
Qed.

(** From [get()] to the start of synthesis: the task becomes current,
    [is_speaking] is set, the stop flag is cleared, the start is reported. *)
Lemma round_start (E : Engine) (o : Wrapper) (tr : list Event) (t : AudioTask)
    (q : list (option AudioTask)) (items : list Chunk) (raises : bool) :
  audio_queue o = Some t :: q ->
  communicate E (text t) (voice o) = (items, raises) ->
  ticks E 5 (mkSys o AtGet tr)
  = mkSys (set_should_stop false
             (set_is_speaking true (set_current_task (Some t) (set_audio_queue q o))))
          (AtGenerate items raises [])
          (tr ++ [LogProcessing (task_id t)]
              ++ (if on_speech_start o then [CallSpeechStart] else [])).
Proof.
  intros Hq Hcom. cbn [ticks].
  rewrite (tick_get E o tr t q Hq), tick_set_current, tick_set_speaking,
    tick_clear_stop.
  rewrite (tick_notify_start E _ tr t items raises); [reflexivity|exact Hcom].
Qed.

(** Case analysis of one worker statement, with the events it added. *)
Ltac news_tac :=
  simpl;
  repeat match goal with
         | |- context [let '(_, _) := ?x in _] => destruct x; simpl
         | |- context [match ?x with _ => _ end] => destruct x; simpl
         | |- context [if ?x then _ else _] => destruct x; simpl
         end;
  unfold emit, goto; simpl;
  rewrite <- ?app_assoc, ?skipn_all, ?skipn_own; simpl;
  intuition (try discriminate).

(** C4, as stated, fails: [on_speech_start] is called before synthesis is
    attempted, so a task whose synthesis fails has had its start callback. *)
Lemma C4_start_before_synthesis_refuted :
  let s1 := snd (speak "hello" (Some "a") 1 None "u" fresh) in
  let s2 := drain failing_engine (work failing_engine s1) s1 in
  synthesis_fails failing_engine "hello" (voice (obj s1)) = true /\
  added s1 s2 = [LogProcessing "a"; CallSpeechStart; LogGenerationError] /\
  In CallSpeechStart (added s1 s2).
Proof.
  vm_compute. split; [reflexivity|]. split; [reflexivity|]. right; left; reflexivity.
Qed.

(** C4, amended: the start callback belongs to the dequeue, not to the
    synthesis.  When synthesis fails for a dequeued task, the worker has
    already logged the task and invoked [on_speech_start]; it then reports
    the failure, plays nothing, does not invoke [on_speech_end], and is back
    at [get()] with [is_speaking] reset and the rest of the queue untouched,
    ready for the next task.  In general [on_speech_start] is invoked only at
    the start of a round, before synthesis, and [on_speech_end] only after
    the playback loop has run through all of the audio. *)
Theorem C4_synthesis_failure_path (E : Engine) (s : Sys) (t : AudioTask)
    (q : list (option AudioTask)) :
  wpc s = AtGet ->
  audio_queue (obj s) = Some t :: q ->
  synthesis_fails E (text t) (voice (obj s)) = true ->
  (exists n,
      let s' := ticks E n s in
      wpc s' = AtGet /\
      audio_queue (obj s') = q /\
      is_speaking (obj s') = false /\
      current_task (obj s') = None /\
      trace s' = trace s ++ [LogProcessing (task_id t)]
                   ++ (if on_speech_start (obj s) then [CallSpeechStart] else [])
                   ++ [LogGenerationError]) /\
  (forall s0, In CallSpeechStart (added s0 (tick E s0)) ->
              exists t0, wpc s0 = AtNotifyStart t0) /\
  (forall s0, In CallSpeechEnd (added s0 (tick E s0)) -> wpc s0 = AtNotifyEnd true) /\
  (forall s0, wpc (tick E s0) = AtNotifyEnd true -> wpc s0 = AtPlay []).
Proof.
  intros Hpc Hq Hfail. split; [|split; [|split]].
  - destruct s as [o pc tr]; simpl in *; subst pc.
    unfold synthesis_fails in Hfail.
    destruct (communicate E (text t) (voice o)) as [items raises] eqn:Hcom.
    exists (5 + (List.length items + 4)).
    rewrite ticks_plus.
    rewrite (round_start E o tr t q items raises Hq Hcom).
    rewrite ticks_plus, (generate_run E items raises []); [|reflexivity..].
    assert (Hnone : generated E items raises [] = None)
      by (destruct (generated E items raises []); [discriminate|reflexivity]).
    unfold generated in Hnone.
    cbn [ticks]; unfold goto; cbn [wpc obj trace].
    match goal with
    | |- context [tick E (mkSys ?o' (AtGenerate [] raises ?acc) ?tr')] =>
        assert (Hend : tick E (mkSys o' (AtGenerate [] raises acc) tr')
                       = mkSys o' (AtCheckAudio None) (tr' ++ [LogGenerationError]))
          by (unfold tick; simpl; destruct raises; [|rewrite Hnone]; reflexivity);
        rewrite Hend
    end.
    simpl. rewrite <- !app_assoc. auto 6.
  - intros [o pc tr]; unfold added, tick; simpl wpc; simpl obj; simpl trace.
    destruct pc as [ |t0|t0|t0|t0|p r a|a|d|rest|c| | | | ];
      try (exists t0; reflexivity); news_tac.
  - intros [o pc tr]; unfold added, tick; simpl wpc; simpl obj; simpl trace.
    destruct pc as [ |t0|t0|t0|t0|p r a|a|d|rest|c| | | | ];
      try (destruct c; [reflexivity|]); news_tac.
  - intros [o pc tr]; unfold tick; simpl wpc; simpl obj.
    destruct pc as [ |t0|t0|t0|t0|p r a|a|d|rest|c| | | | ];
      try (destruct rest; [reflexivity|]); news_tac.
Qed.

Lemma C4_synthesis_failure_path_witness :
  let t := mkTask "hello" "a" 1 [] in
  let s := snd (speak "hello" (Some "a") 1 None "u" fresh) in
  wpc s = AtGet /\
  audio_queue (obj s) = [Some t] /\
  synthesis_fails failing_engine (text t) (voice (obj s)) = true /\
  exists n,
    let s' := ticks failing_engine n s in
    wpc s' = AtGet /\
    audio_queue (obj s') = [] /\
    is_speaking (obj s') = false /\
    current_task (obj s') = None /\
    trace s' = trace s ++ [LogProcessing (task_id t)]
                 ++ (if on_speech_start (obj s) then [CallSpeechStart] else [])
                 ++ [LogGenerationError].
Proof.
  intros t s. split; [reflexivity|]. split; [reflexivity|]. split; [reflexivity|].
  exact (proj1 (C4_synthesis_failure_path failing_engine s t [] eq_refl eq_refl eq_refl)).
Defined.

(** ** C10: the stop flag at the start of a round *)



(** [interrupt] does nothing while no task is in flight. *)
Lemma interrupt_idle (r : InterruptReason) (s : Sys) :
  is_speaking (obj s) = false -> interrupt r s = s.
Proof. intros H; unfold interrupt; rewrite H; reflexivity. Qed.



(** ** C8: the sentence loop when the language model fails *)

(** C8, as stated, fails: with a generator that raises, no message of type
    ["error"] is broadcast, and one task, the spoken apology, is enqueued. *)
Lemma C8_generator_failure_refuted :
  let llm := fun _ : list (string * string) => @None string in
  let v := Srv.mkServer true true [] (Some "key") fresh [] in
  let v' := Srv.on_full_sentence llm "what time is it" "12:00:00" "12:00:01" "u1" v in
  map Srv.mtype (Srv.sent v')
    = ["fullSentence"; "assistant_processing"; "assistant_response"] /\
  ~ In "error" (map Srv.mtype (Srv.sent v')) /\
  audio_queue (obj (Srv.tts_wrapper v')) = [Some (mkTask Srv.error_text "u1" 1 [])].
Proof.
  vm_compute. split; [reflexivity|]. split; [|reflexivity].
  intros [H|[H|[H|[]]]]; discriminate.
Qed.

(** C8, amended: a failure of the language model is turned into speech.
    [generate_llm_response] catches it and returns a fixed apology, leaving
    the history as it was; the sentence loop then treats the apology as any
    reply: it is broadcast as an ["assistant_response"] (after
    ["fullSentence"] and ["assistant_processing"]; nothing else is sent, in
    particular no error event) and enqueued for playback as the one pending
    task, at priority 1. *)
Theorem C8_generator_failure_is_spoken
    (llm : list (string * string) -> option string)
    (full_sentence ts1 ts2 uuid : string) (v : Srv.Server) :
  full_sentence <> "" ->
  Srv.conversation_mode v = true ->
  truthy_str (Srv.api_key v) = true ->
  llm (Srv.last_n 20 (Srv.conversation_history v) ++ [("user", full_sentence)]) = None ->
  let v' := Srv.on_full_sentence llm full_sentence ts1 ts2 uuid v in
  Srv.conversation_history v' = Srv.conversation_history v /\
  Srv.sent v' = Srv.sent v ++
     (if Srv.main_loop v
      then [Srv.mkMessage "fullSentence"
              [("text", full_sentence); ("timestamp", ts1)];
            Srv.mkMessage "assistant_processing" [];
            Srv.mkMessage "assistant_response"
              [("text", Srv.error_text); ("timestamp", ts2)]]
      else []) /\
  audio_queue (obj (Srv.tts_wrapper v')) = [Some (mkTask Srv.error_text uuid 1 [])].
Proof.
  intros Hne Hmode Hkey Hllm v'; subst v'.
  apply String.eqb_neq in Hne.
  unfold Srv.on_full_sentence. rewrite Hne.
  destruct v as [ml cm hist key tts snt]; simpl in *; subst cm.
  unfold Srv.generate_llm_response, Srv.broadcast; simpl.
  destruct ml; simpl; rewrite Hkey, Hllm; simpl.
  - repeat split.
    + rewrite <- !app_assoc; reflexivity.
    + destruct (call_enqueues (mkCall Srv.error_text None 1 None uuid)
                              (clear_queue tts)) as (_ & Hq & _).
      unfold call in Hq; simpl in Hq. exact Hq.
  - repeat split.
    + rewrite app_nil_r; reflexivity.
    + destruct (call_enqueues (mkCall Srv.error_text None 1 None uuid)
                              (clear_queue tts)) as (_ & Hq & _).
      unfold call in Hq; simpl in Hq. exact Hq.
Qed.

Lemma C8_generator_failure_is_spoken_witness :
  let llm := fun _ : list (string * string) => @None string in
  let v := Srv.mkServer true true [] (Some "key") fresh [] in
  let v' := Srv.on_full_sentence llm "what time is it" "12:00:00" "12:00:01" "u1" v in
  "what time is it" <> "" /\
  Srv.conversation_history v' = [] /\
  audio_queue (obj (Srv.tts_wrapper v')) = [Some (mkTask Srv.error_text "u1" 1 [])].
Proof.
  intros llm v v'. split; [discriminate|].
  pose proof (C8_generator_failure_is_spoken llm "what time is it" "12:00:00"
                "12:00:01" "u1" v) as H.
  destruct H as (Hh & _ & Hq); try reflexivity; [discriminate|].
  split; [exact Hh|exact Hq].
Defined.

(** ** C9: the turn detector at the end of speech *)

(** C9 on the code: [on_speech_end] clears [is_user_speaking] and nothing
    else, so [last_speech_time] still holds the time speech started.  The
    user starts speaking at 10 s and stops at 15 s; at 15.125 s, after an
    eighth of a second of silence against a threshold of 0.8 s,
    [should_respond] already answers yes, because it measures 5.125 s. *)
Lemma C9_speech_end_keeps_start_time :
  (forall now d, Turn.last_speech_time (Turn.on_vad_stop now d)
                 = Turn.last_speech_time d) /\
  let d := Turn.on_vad_stop 15 (Turn.on_vad_start 10 (Turn.init 0)) in
  Turn.is_user_speaking d = false /\
  Turn.last_speech_time d = 10%float /\
  Turn.should_respond 15.125 d = true.
Proof.
  split; [reflexivity|]. vm_compute. repeat split; reflexivity.
Qed.

(* ================================================================== *)
(** * Further properties of the code *)
(* ================================================================== *)

Import Obs2.

(** ** The wrapper and its worker *)

Lemma tick_tracks (E : Engine) (s : Sys) :
  is_speaking (obj s) = in_round (wpc s) ->
  is_speaking (obj (tick E s)) = in_round (wpc (tick E s)).
Proof.
  destruct s as [o pc tr]; unfold tick; simpl wpc; simpl obj.
  destruct pc as [ |t|t|t|t|p r a|a|d|rest|c| | | | ]; simpl; intros H;
    split_tick; auto.
Qed.

Lemma act_tracks (E : Engine) (a : Action) (s : Sys) :
  is_speaking (obj s) = in_round (wpc s) ->
  is_speaking (obj (act E a s)) = in_round (wpc (act E a s)).
Proof.
  destruct a as [tx id p md u|r| | | | ]; cbn [act].
  - change (speak tx id p md u s) with (call (mkCall tx id p md u) s).
    pose proof (call_enqueues (mkCall tx id p md u) s) as (_ & _ & Hpc & _).
    pose proof (call_frame (mkCall tx id p md u) s) as (_ & Hs & _).
    rewrite Hpc, Hs; auto.
  - destruct (interrupt_frame r s) as (Hpc & _ & Hs & _).
    rewrite Hpc, Hs; auto.
  - auto.
  - destruct (shutdown_frame s) as (_ & Hpc & _).
    destruct (shutdown_keeps s) as (_ & Hs & _).
    rewrite Hpc, Hs; auto.
  - destruct (voice_activity_keeps s) as (_ & Hpc & Hs & _).
    rewrite Hpc, Hs; auto.
  - apply tick_tracks.
Qed.

Lemma run_tracks (E : Engine) (sched : list Action) (s : Sys) :
  is_speaking (obj s) = in_round (wpc s) ->
  is_speaking (obj (run E sched s)) = in_round (wpc (run E sched s)).
Proof.
  revert s; induction sched as [|a sched IH]; intros s H; [exact H|].
  change (run E (a :: sched) s) with (run E sched (act E a s)).
  apply IH, act_tracks, H.
Qed.

(** X1: [is_speaking] tells exactly whether the worker is inside a round.
    In every state that any schedule of front-end calls and worker
    statements reaches from a fresh wrapper, the flag is set if and only if
    the worker is between [self.is_speaking = True] and the statement that
    resets it (the normal reset or the one of the [except] branch). *)
Theorem X1_is_speaking_tracks_worker (E : Engine) (sched : list Action)
    (v : string) (cb_start cb_end cb_int rec orig : bool) :
  let s := run E sched (init v cb_start cb_end cb_int rec orig) in
  is_speaking (obj s) = in_round (wpc s).
Proof.
  intros s. apply run_tracks. reflexivity.
Qed.

(** X2: nothing interrupts an idle wrapper.  In a reachable state whose
    worker is outside a round, [interrupt] changes nothing, [speak] only
    appends its task (no stop flag, no report, whatever the priority and
    whatever [current_task] still holds), and a VAD event does no more than
    call the recorder's original callback. *)
Theorem X2_idle_wrapper_is_not_interrupted (E : Engine) (sched : list Action)
    (v : string) (cb_start cb_end cb_int rec orig : bool) :
  let s := run E sched (init v cb_start cb_end cb_int rec orig) in
  in_round (wpc s) = false ->
  (forall r, interrupt r s = s) /\
  (forall c, snd (call c s)
             = upd (fun w => set_audio_queue (audio_queue w ++ [Some (task_of c)]) w) s) /\
  voice_activity_start s
    = (if rec && orig then emit CallOriginalVadStart s else s).
Proof.
  intros s Hidle.
  assert (Hs : is_speaking (obj s) = false).
  { subst s. rewrite run_tracks; [exact Hidle|reflexivity]. }
  destruct (run_keeps E sched (init v cb_start cb_end cb_int rec orig)) as [_ Hc].
  { repeat split; discriminate. }
  fold s in Hc. unfold config in Hc; simpl in Hc.
  injection Hc as _ _ _ _ Hrec Horig.
  split; [intros r; apply interrupt_idle, Hs|]. split.
  - intros [tx id p md u]. unfold call, speak, task_of; simpl.
    rewrite Hs; simpl. destruct (current_task (obj s)); reflexivity.
  - unfold voice_activity_start, on_vad_interrupt.
    rewrite (interrupt_idle VAD_DETECTED s Hs), Hrec, Horig.
    destruct rec; reflexivity.
Qed.

Lemma X2_idle_wrapper_is_not_interrupted_witness :
  let sched := [Speak "one" (Some "a") 5 None "u"; Tick; Tick; Tick; Tick; Tick;
                Interrupt MANUAL; Tick; Tick; Tick; Tick] in
  let s := run demo_engine sched fresh_vad in
  in_round (wpc s) = false /\
  should_stop (obj s) = true /\
  interrupt MANUAL s = s /\
  voice_activity_start s = emit CallOriginalVadStart s.
Proof.
  intros sched s. split; [reflexivity|]. split; [reflexivity|].
  destruct (X2_idle_wrapper_is_not_interrupted demo_engine sched
              "en-US-JennyNeural" true true true true true eq_refl) as (Hi & _ & Hv).
  split; [apply Hi|exact Hv].
Defined.

(** X3: [clear_queue] discards what is pending and nothing else.  The
    flags, the current task, the worker and the trace are untouched, so a
    task in flight goes on; and a worker left to run afterwards comes to rest
    having taken no task beyond the one it already held. *)
Theorem X3_clear_queue_spares_the_round (E : Engine) (s : Sys) :
  let s1 := clear_queue s in
  let s2 := drain E (work E s1) s1 in
  s1 = upd (set_audio_queue []) s /\
  is_speaking (obj s1) = is_speaking (obj s) /\
  should_stop (obj s1) = should_stop (obj s) /\
  current_task (obj s1) = current_task (obj s) /\
  quiescent s2 = true /\
  dequeued (trace s2) = served s.
Proof.
  intros s1 s2.
  destruct (drain_order E s1) as [Hrest Hord]. fold s2 in Hrest, Hord.
  repeat split; auto.
  rewrite Hord. unfold served, pending; subst s1; simpl.
  destruct (wpc s); rewrite app_nil_r; reflexivity.
Qed.

Ltac split_cases :=
  repeat match goal with
         | |- context [let '(_, _) := ?x in _] => destruct x; simpl
         | |- context [match ?x with _ => _ end] => destruct x; simpl
         | |- context [if ?x then _ else _] => destruct x; simpl
         end.

Lemma tick_no_sentinel (E : Engine) (s : Sys) :
  ~ In None (audio_queue (obj s)) -> wpc s <> Stopped ->
  ~ In None (audio_queue (obj (tick E s))) /\ wpc (tick E s) <> Stopped.
Proof.
  destruct s as [o pc tr]; unfold tick; simpl wpc; simpl obj.
  destruct pc as [ |t|t|t|t|p r a|a|d|rest|c| | | | ]; simpl; intros Hn Hp;
    try congruence;
    try (split_cases; (split; [exact Hn|discriminate])).
  destruct (audio_queue o) as [|[t|] q] eqn:Hq; simpl in *.
  - rewrite Hq; split; [tauto|discriminate].
  - split; [tauto|discriminate].
  - exfalso; apply Hn; left; reflexivity.
Qed.

Lemma drain_no_sentinel (E : Engine) (fuel : nat) (s : Sys) :
  ~ In None (audio_queue (obj s)) -> wpc s <> Stopped ->
  wpc (drain E fuel s) <> Stopped.
Proof.
  revert s; induction fuel as [|f IH]; intros s Hn Hp; simpl; [exact Hp|].
  destruct (quiescent s); [exact Hp|].
  destruct (tick_no_sentinel E s Hn Hp) as [Hn' Hp']. apply IH; assumption.
Qed.

(** X4: [clear_queue] undoes a shutdown that the worker has not yet seen.
    It takes the sentinel out of the queue with everything else; a worker
    that had not stopped then never stops, and takes every task enqueued
    afterwards, in arrival order. *)
Theorem X4_clear_queue_discards_the_sentinel (E : Engine) (calls : list SpeakCall)
    (s : Sys) :
  wpc s <> Stopped ->
  let s1 := speak_all calls (clear_queue (shutdown s)) in
  let s2 := drain E (work E s1) s1 in
  audio_queue (obj s1) = map Some (map task_of calls) /\
  quiescent s2 = true /\
  wpc s2 <> Stopped /\
  dequeued (trace s2) = served s ++ map task_id (map task_of calls).
Proof.
  intros Hp s1 s2.
  destruct (speak_all_enqueues calls (clear_queue (shutdown s))) as (Hq & Hpc & Hd).
  destruct (shutdown_frame s) as (_ & Hpc0 & Hd0).
  fold s1 in Hq, Hpc, Hd.
  change (audio_queue (obj (clear_queue (shutdown s))))
    with (@nil (option AudioTask)) in Hq.
  change (wpc (clear_queue (shutdown s))) with (wpc (shutdown s)) in Hpc.
  change (trace (clear_queue (shutdown s))) with (trace (shutdown s)) in Hd.
  cbn [app] in Hq.
  destruct (drain_order E s1) as [Hrest Hord]. fold s2 in Hrest, Hord.
  split; [exact Hq|]. split; [exact Hrest|]. split.
  - apply drain_no_sentinel.
    + rewrite Hq. intros Hin. apply in_map_iff in Hin.
      destruct Hin as (x & Hx & _); discriminate.
    + rewrite Hpc, Hpc0; exact Hp.
  - rewrite Hord. unfold served, pending.
    rewrite Hpc, Hpc0, Hq, Hd, Hd0, before_sentinel_tasks.
    destruct (wpc s); try reflexivity. congruence.
Qed.

Lemma X4_clear_queue_discards_the_sentinel_witness :
  let calls := [mkCall "again" (Some "z") 0 None "u"] in
  let s1 := speak_all calls (clear_queue (shutdown fresh)) in
  let s2 := drain demo_engine (work demo_engine s1) s1 in
  wpc fresh <> Stopped /\
  wpc s2 <> Stopped /\
  dequeued (trace s2) = served fresh ++ ["z"].
Proof.
  intros calls s1 s2.
  assert (H : wpc fresh <> Stopped) by discriminate.
  split; [exact H|].
  destruct (X4_clear_queue_discards_the_sentinel demo_engine calls fresh H)
    as (_ & _ & Hs & Hd).
  split; [exact Hs|exact Hd].
Defined.

Lemma collect_audio (items : list Chunk) (acc : list (list byte)) :
  collect items acc = acc ++ audio_items items.
Proof.
  revert acc; induction items as [|c items IH]; intros acc.
  - unfold audio_items; simpl; rewrite app_nil_r; reflexivity.
  - unfold audio_items in *; simpl.
    destruct (String.eqb (chunk_type c) "audio"); simpl; rewrite IH;
      rewrite <- ?app_assoc; reflexivity.
Qed.

(** X5: with the stop flag clear, [_generate_audio] consumes the whole
    stream and hands the decoder exactly the data of the items of type
    ["audio"], in order: items of any other type are ignored.  A stream
    that raises, or data the decoder refuses, gives [None] and one error
    line. *)
Theorem X5_only_audio_items_are_decoded (E : Engine) (s : Sys)
    (items : list Chunk) (raises : bool) :
  wpc s = AtGenerate items raises [] ->
  should_stop (obj s) = false ->
  let audio_data :=
    if raises then None else from_mp3 E (List.concat (audio_items items)) in
  ticks E (List.length items + 1) s
  = goto (AtCheckAudio audio_data)
         (match audio_data with
          | Some _ => s
          | None => emit LogGenerationError s
          end).
Proof.
  intros Hpc Hstop audio_data; subst audio_data.
  rewrite ticks_plus, (generate_run E items raises [] s Hpc Hstop).
  rewrite collect_audio; simpl app.
  destruct s as [o pc tr]; simpl in *; subst pc.
  unfold tick; simpl. destruct raises; [reflexivity|].
  destruct (from_mp3 E (List.concat (audio_items items))); reflexivity.
Qed.

Lemma X5_only_audio_items_are_decoded_witness :
  let items := [mkChunk "audio" [x01; x02]; mkChunk "WordBoundary" [x09];
                mkChunk "audio" [x03]] in
  let s := mkSys (obj fresh) (AtGenerate items false []) [] in
  wpc s = AtGenerate items false [] /\
  should_stop (obj s) = false /\
  wpc (ticks demo_engine 4 s)
  = AtCheckAudio (Some [x01; x02; x03; x01; x02; x03]).
Proof.
  intros items s. split; [reflexivity|]. split; [reflexivity|].
  change (ticks demo_engine 4 s)
    with (ticks demo_engine (List.length items + 1) s).
  rewrite (X5_only_audio_items_are_decoded demo_engine s items false eq_refl eq_refl).
  reflexivity.
Defined.

(** A round up to the test that follows synthesis. *)
Lemma round_to_check (E : Engine) (o : Wrapper) (tr : list Event) (t : AudioTask)
    (q : list (option AudioTask)) (items : list Chunk) (raises : bool) :
  audio_queue o = Some t :: q ->
  communicate E (text t) (voice o) = (items, raises) ->
  ticks E (5 + (List.length items + 1)) (mkSys o AtGet tr)
  = mkSys (set_should_stop false
             (set_is_speaking true (set_current_task (Some t) (set_audio_queue q o))))
          (AtCheckAudio (generated E items raises []))
          (tr ++ [LogProcessing (task_id t)]
              ++ (if on_speech_start o then [CallSpeechStart] else [])
              ++ (match generated E items raises [] with
                  | Some _ => []
                  | None => [LogGenerationError]
                  end)).
Proof.
  intros Hq Hcom.
  rewrite ticks_plus, (round_start E o tr t q items raises Hq Hcom).
  rewrite ticks_plus, (generate_run E items raises []); [|reflexivity..].
  unfold generated, goto; cbn [ticks wpc obj trace].
  unfold tick; simpl.
  destruct raises; [|destruct (from_mp3 E (List.concat (collect items [])))];
    unfold goto, emit; simpl; rewrite <- ?app_assoc, ?app_nil_r; reflexivity.
Qed.

(** X6: a task whose synthesis yields empty audio is dropped in silence.
    The round starts as any other ([on_speech_start] is called), then ends
    at once: nothing is played, and neither [on_speech_end] nor
    [on_speech_interrupted] nor any error line follows. *)
Theorem X6_empty_audio_is_dropped_silently (E : Engine) (s : Sys) (t : AudioTask)
    (q : list (option AudioTask)) :
  wpc s = AtGet ->
  audio_queue (obj s) = Some t :: q ->
  (let '(items, raises) := communicate E (text t) (voice (obj s)) in
   generated E items raises []) = Some [] ->
  exists n,
    let s' := ticks E n s in
    wpc s' = AtGet /\
    audio_queue (obj s') = q /\
    is_speaking (obj s') = false /\
    current_task (obj s') = None /\
    stream (obj s') = stream (obj s) /\
    trace s' = trace s ++ [LogProcessing (task_id t)]
                 ++ (if on_speech_start (obj s) then [CallSpeechStart] else []).
Proof.
  intros Hpc Hq Hgen. destruct s as [o pc tr]; simpl in *; subst pc.
  destruct (communicate E (text t) (voice o)) as [items raises] eqn:Hcom.
  exists (5 + (List.length items + 1) + 3).
  rewrite ticks_plus, (round_to_check E o tr t q items raises Hq Hcom), Hgen.
  cbn [ticks]. unfold tick; simpl. rewrite app_nil_r. auto 7.
Qed.

Lemma X6_empty_audio_is_dropped_silently_witness :
  let E := mkEngine (fun _ _ => ([mkChunk "WordBoundary" []], false))
                    (fun b => Some b) true (fun _ => true) in
  let t := mkTask "" "a" 0 [] in
  let s := snd (speak "" (Some "a") 0 None "u" fresh) in
  wpc s = AtGet /\ audio_queue (obj s) = [Some t] /\
  exists n, trace (ticks E n s) = trace s ++ [LogProcessing "a"; CallSpeechStart].
Proof.
  intros E t s. split; [reflexivity|]. split; [reflexivity|].
  destruct (X6_empty_audio_is_dropped_silently E s t [] eq_refl eq_refl eq_refl)
    as (n & H).
  exists n. exact (proj2 (proj2 (proj2 (proj2 (proj2 H))))).
Defined.

(** X7: a failure to open the audio device does not stop the worker.  The
    [except] branch logs the error and resets [is_speaking]; the worker is
    back at [get()] with the rest of the queue untouched.  No end is
    reported for the task, and [current_task] still holds it: the [except]
    branch does not reset it. *)
Theorem X7_device_failure_keeps_the_worker (E : Engine) (s : Sys) (t : AudioTask)
    (q : list (option AudioTask)) (b : byte) (data : list byte) :
  wpc s = AtGet ->
  audio_queue (obj s) = Some t :: q ->
  (let '(items, raises) := communicate E (text t) (voice (obj s)) in
   generated E items raises []) = Some (b :: data) ->
  stream (obj s) = None ->
  device_open E = false ->
  exists n,
    let s' := ticks E n s in
    wpc s' = AtGet /\
    audio_queue (obj s') = q /\
    is_speaking (obj s') = false /\
    current_task (obj s') = Some t /\
    trace s' = trace s ++ [LogProcessing (task_id t)]
                 ++ (if on_speech_start (obj s) then [CallSpeechStart] else [])
                 ++ [LogWorkerError].
Proof.
  intros Hpc Hq Hgen Hst Hop. destruct s as [o pc tr]; simpl in *; subst pc.
  destruct (communicate E (text t) (voice o)) as [items raises] eqn:Hcom.
  exists (5 + (List.length items + 1) + 3).
  rewrite ticks_plus, (round_to_check E o tr t q items raises Hq Hcom), Hgen.
  cbn [ticks]. repeat (step ltac:(rewrite ?Hst, ?Hop)).
  simpl. rewrite ?app_nil_r, <- ?app_assoc. auto 6.
Qed.

Lemma X7_device_failure_keeps_the_worker_witness :
  let E := mkEngine (communicate demo_engine) (from_mp3 demo_engine) false
                    (fun _ => true) in
  let t := mkTask "hello" "a" 0 [] in
  let s := snd (speak "hello" (Some "a") 0 None "u" fresh) in
  wpc s = AtGet /\ audio_queue (obj s) = [Some t] /\ stream (obj s) = None /\
  exists n,
    is_speaking (obj (ticks E n s)) = false /\
    current_task (obj (ticks E n s)) = Some t.
Proof.
  intros E t s. split; [reflexivity|]. split; [reflexivity|]. split; [reflexivity|].
  destruct (X7_device_failure_keeps_the_worker E s t [] x01 [x02; x03; x01; x02; x03]
              eq_refl eq_refl eq_refl eq_refl eq_refl) as (n & H).
  exists n. split; [exact (proj1 (proj2 (proj2 H)))|exact (proj1 (proj2 (proj2 (proj2 H))))].
Defined.

(** ** The slices of [_play_audio] *)

Lemma range_chop (fuel i : nat) (d : list byte) :
  List.length d - i <= fuel ->
  map (fun j => firstn (chunk_size * 2) (skipn j d))
      (Play.range fuel i (List.length d) (chunk_size * 2))
  = chop fuel (skipn i d).
Proof.
  revert i; induction fuel as [|f IH]; intros i Hf; [reflexivity|].
  cbn [Play.range chop].
  destruct (i <? List.length d)%nat eqn:Hi.
  - apply Nat.ltb_lt in Hi.
    destruct (skipn i d) as [|b r] eqn:Hs.
    + exfalso. assert (H : List.length (skipn i d) = 0) by (rewrite Hs; reflexivity).
      rewrite length_skipn in H. lia.
    + cbn [map]. rewrite <- Hs. f_equal.
      rewrite IH; [|pose proof slice_positive; lia].
      rewrite skipn_skipn. f_equal. f_equal. lia.
  - apply Nat.ltb_ge in Hi. rewrite skipn_all2; [reflexivity|exact Hi].
Qed.

Lemma play_chunks_chop (d : list byte) :
  Play.play_chunks d = chop (List.length d) d.
Proof.
  unfold Play.play_chunks. rewrite range_chop; [reflexivity|lia].
Qed.

Lemma chop_concat (fuel : nat) (rest : list byte) :
  List.length rest <= fuel -> List.concat (chop fuel rest) = rest.
Proof.
  revert rest; induction fuel as [|f IH]; intros rest Hf.
  - destruct rest; [reflexivity|simpl in Hf; lia].
  - destruct rest as [|b r]; [reflexivity|].
    cbn [chop List.concat]. rewrite IH; [apply firstn_skipn|].
    pose proof (skipn_shorter (chunk_size * 2) (b :: r) slice_positive) as H.
    assert (Hne : b :: r <> []) by discriminate. specialize (H Hne). lia.
Qed.

Lemma chop_sizes (fuel : nat) (rest : list byte) :
  Forall (fun c => 0 < List.length c <= chunk_size * 2) (chop fuel rest).
Proof.
  revert rest; induction fuel as [|f IH]; intros rest; [constructor|].
  destruct rest as [|b r]; [constructor|].
  cbn [chop]. constructor; [|apply IH].
  rewrite length_firstn. pose proof slice_positive. cbn [List.length]. lia.
Qed.

Lemma chop_run (E : Engine) (fuel : nat) :
  forall (rest : list byte) (s : Sys),
    List.length rest <= fuel ->
    wpc s = AtPlay rest ->
    should_stop (obj s) = false ->
    stream (obj s) = Some Active ->
    exists n,
      ticks E n s
      = goto (if forallb (device_write E) (chop fuel rest)
              then AtNotifyEnd true else AtExcept) s.
Proof.
  induction fuel as [|f IH]; intros rest s Hf Hpc Hstop Hst.
  - destruct rest; [|simpl in Hf; lia].
    exists 1. destruct s as [o pc tr]; simpl in *; subst pc; reflexivity.
  - destruct rest as [|b r].
    + exists 1. destruct s as [o pc tr]; simpl in *; subst pc; reflexivity.
    + cbn [chop forallb].
      destruct (device_write E (firstn (chunk_size * 2) (b :: r))) eqn:Hw.
      * assert (Ht : tick E s = goto (AtPlay (skipn (chunk_size * 2) (b :: r))) s).
        { destruct s as [o pc tr]; simpl in *; subst pc.
          unfold tick; simpl. rewrite Hstop, Hst, Hw; reflexivity. }
        destruct (IH (skipn (chunk_size * 2) (b :: r))
                     (goto (AtPlay (skipn (chunk_size * 2) (b :: r))) s))
          as [k Hk]; try assumption; try reflexivity.
        { pose proof (skipn_shorter (chunk_size * 2) (b :: r) slice_positive) as H.
          assert (Hne : b :: r <> []) by discriminate. specialize (H Hne). lia. }
        exists (S k). cbn [ticks andb]. rewrite Ht, Hk. apply goto_goto.
      * exists 1. destruct s as [o pc tr]; simpl in *; subst pc.
        cbn [ticks andb]. unfold tick; simpl. rewrite Hstop, Hst, Hw; reflexivity.
Qed.

(** X8: what [_play_audio] writes.  The chunks
    [audio_data[i:i + chunk_size * 2]], [i] stepping through
    [range(0, len(audio_data), chunk_size * 2)], are non-empty, at most
    [chunk_size * 2] bytes each, and together they are the audio, in
    order.  With the stop flag clear and the stream open, the worker reports
    completion exactly when the device accepts every one of these chunks;
    otherwise it ends in the [except] branch. *)
Theorem X8_playback_writes_the_audio_in_slices (E : Engine) (d : list byte) (s : Sys) :
  wpc s = AtPlay d ->
  should_stop (obj s) = false ->
  stream (obj s) = Some Active ->
  List.concat (Play.play_chunks d) = d /\
  Forall (fun c => 0 < List.length c <= chunk_size * 2) (Play.play_chunks d) /\
  exists n,
    ticks E n s
    = goto (if forallb (device_write E) (Play.play_chunks d)
            then AtNotifyEnd true else AtExcept) s.
Proof.
  intros Hpc Hstop Hst. rewrite play_chunks_chop.
  split; [apply chop_concat; lia|]. split; [apply chop_sizes|].
  apply chop_run; auto.
Qed.

Lemma X8_playback_writes_the_audio_in_slices_witness :
  let d := [x01; x02; x03] in
  let s := mkSys (set_stream (Some Active) (obj fresh)) (AtPlay d) [] in
  wpc s = AtPlay d /\ should_stop (obj s) = false /\ stream (obj s) = Some Active /\
  List.concat (Play.play_chunks d) = d /\
  exists n, wpc (ticks demo_engine n s) = AtNotifyEnd true.
Proof.
  intros d s. split; [reflexivity|]. split; [reflexivity|]. split; [reflexivity|].
  destruct (X8_playback_writes_the_audio_in_slices demo_engine d s
              eq_refl eq_refl eq_refl) as (Hc & _ & n & Hn).
  split; [exact Hc|]. exists n. rewrite Hn. reflexivity.
Defined.

(** ** Pre-emption and the queue *)

Lemma call_preempts (c : SpeakCall) (cur : AudioTask) (s : Sys) :
  is_speaking (obj s) = true ->
  current_task (obj s) = Some cur ->
  (priority cur < c_priority c)%Z ->
  should_stop (obj (snd (call c s))) = true.
Proof.
  intros Hs Hc Hp. apply Z.ltb_lt in Hp.
  destruct c as [tx id p md u]; unfold call, speak, interrupt; simpl in *.
  rewrite Hc, Hs, Hp; simpl. rewrite ?Hs.
  destruct (on_speech_interrupted (obj s)); reflexivity.
Qed.

(** X9: a pre-empting task does not jump the queue.  A [speak] call whose
    priority exceeds that of the task in flight raises the stop flag, but
    its own task goes to the back: the worker, left to run, takes every
    task that was already pending, in arrival order, before it takes the
    new one. *)
Theorem X9_preempting_task_waits_its_turn (E : Engine) (c : SpeakCall)
    (cur : AudioTask) (ts : list AudioTask) (s : Sys) :
  is_speaking (obj s) = true ->
  current_task (obj s) = Some cur ->
  (priority cur < c_priority c)%Z ->
  wpc s <> Stopped ->
  audio_queue (obj s) = map Some ts ->
  let s1 := snd (call c s) in
  let s2 := drain E (work E s1) s1 in
  should_stop (obj s1) = true /\
  quiescent s2 = true /\
  dequeued (trace s2) = served s ++ map task_id ts ++ [task_id (task_of c)].
Proof.
  intros Hs Hc Hp Hpc Hq s1 s2.
  destruct (call_enqueues c s) as (_ & Hq1 & Hpc1 & Hd1). fold s1 in Hq1, Hpc1, Hd1.
  destruct (drain_order E s1) as [Hrest Hord]. fold s2 in Hrest, Hord.
  split; [apply (call_preempts c cur s Hs Hc Hp)|]. split; [exact Hrest|].
  rewrite Hord. unfold served, pending. rewrite Hpc1, Hd1, Hq1, Hq.
  change [Some (task_of c)] with (map Some [task_of c]).
  rewrite <- map_app, before_sentinel_tasks, map_app.
  destruct (wpc s); try reflexivity. congruence.
Qed.

Lemma X9_preempting_task_waits_its_turn_witness :
  let low := mkTask "low" "a" 0 [] in
  let mid := mkTask "mid" "b" 0 [] in
  let s := snd (speak "mid" (Some "b") 0 None "u"
                  (ticks demo_engine 5 (snd (speak "low" (Some "a") 0 None "u" fresh)))) in
  let c := mkCall "high" (Some "h") 10 None "u" in
  let s1 := snd (call c s) in
  let s2 := drain demo_engine (work demo_engine s1) s1 in
  is_speaking (obj s) = true /\ current_task (obj s) = Some low /\
  audio_queue (obj s) = [Some mid] /\
  should_stop (obj s1) = true /\
  dequeued (trace s2) = ["a"; "b"; "h"].
Proof.
  intros low mid s c s1 s2.
  split; [reflexivity|]. split; [reflexivity|]. split; [reflexivity|].
  assert (Hp : wpc s <> Stopped) by discriminate.
  destruct (X9_preempting_task_waits_its_turn demo_engine c low [mid] s
              eq_refl eq_refl eq_refl Hp eq_refl) as (H1 & _ & H3).
  split; [exact H1|exact H3].
Defined.

(** ** The VAD callback slot *)

(** The wiring [__init__] leaves behaves as [on_vad_interrupt] of the
    wrapper: interrupt, then the recorder's own callback if it had one. *)
Lemma wiring_after_init (cb : option Vad.Callback) (fuel : nat) (s : Sys) :
  cb <> Some Vad.VadInterrupt ->
  _original_on_vad_start (obj s) = (match cb with Some _ => true | None => false end) ->
  Vad.fire (2 + fuel) (Vad._setup_vad_callbacks (Vad.mkWiring cb None)) s
  = Some (on_vad_interrupt s).
Proof.
  intros Hcb Ho. unfold Vad.fire, on_vad_interrupt; simpl.
  pose proof (interrupt_config VAD_DETECTED s) as Hc.
  unfold config in Hc. injection Hc as _ _ _ _ _ Hc. rewrite Hc, Ho.
  destruct cb as [[|]|]; [reflexivity|congruence|reflexivity].
Qed.

(** X10: [enable_auto_interrupt(False)] takes the wrapper out of the VAD
    path.  On a wired wrapper it puts the recorder's original callback back
    in the slot, so that a VAD event no longer touches the wrapper, even with
    a task in flight, and only runs that original callback (if there was
    one); [enable_auto_interrupt(True)] after that restores the wiring
    exactly. *)
Theorem X10_disabling_auto_interrupt (w : Vad.Wiring) (fuel : nat) (s : Sys) :
  Vad.on_vad_detect_start w = Some Vad.VadInterrupt ->
  Vad.original w <> Some Vad.VadInterrupt ->
  let w' := Vad.enable_auto_interrupt false w in
  Vad.fire (S fuel) w' s
  = Some (match Vad.original w with
          | Some _ => emit CallOriginalVadStart s
          | None => s
          end) /\
  Vad.enable_auto_interrupt true w' = w.
Proof.
  intros Hslot Horig w'; subst w'.
  destruct w as [slot orig]; simpl in *; subst slot.
  unfold Vad.fire, Vad.enable_auto_interrupt, Vad._setup_vad_callbacks; simpl.
  destruct orig as [[|]|]; [auto|congruence|auto].
Qed.

Lemma X10_disabling_auto_interrupt_witness :
  let w := Vad._setup_vad_callbacks (Vad.mkWiring (Some Vad.UserCallback) None) in
  let s := ticks demo_engine 5 (snd (speak "hello" (Some "a") 0 None "u" fresh_vad)) in
  is_speaking (obj s) = true /\
  Vad.fire 1 (Vad.enable_auto_interrupt false w) s = Some (emit CallOriginalVadStart s) /\
  Vad.enable_auto_interrupt true (Vad.enable_auto_interrupt false w) = w.
Proof.
  intros w s. split; [reflexivity|].
  apply (X10_disabling_auto_interrupt w 0 s); [reflexivity|discriminate].
Defined.

Lemma call_loops (fuel : nat) (s : Sys) :
  Vad.call fuel (Vad.mkWiring (Some Vad.VadInterrupt) (Some Vad.VadInterrupt))
           Vad.VadInterrupt s = None.
Proof.
  revert s; induction fuel as [|f IH]; intros s; [reflexivity|].
  simpl. apply IH.
Qed.

(** X11: [enable_auto_interrupt(True)] on a wrapper that is already wired
    breaks the VAD callback.  [_setup_vad_callbacks] runs again and stores
    the wrapper's own closure as the "original" callback; from then on a
    VAD event makes the closure call itself without end: whatever stack is
    available, the call does not return. *)
Theorem X11_enabling_twice_never_returns (w : Vad.Wiring) :
  Vad.on_vad_detect_start w = Some Vad.VadInterrupt ->
  forall (fuel : nat) (s : Sys),
    Vad.fire fuel (Vad.enable_auto_interrupt true w) s = None.
Proof.
  intros Hslot fuel s.
  unfold Vad.fire, Vad.enable_auto_interrupt, Vad._setup_vad_callbacks.
  rewrite Hslot; simpl. apply call_loops.
Qed.

Lemma X11_enabling_twice_never_returns_witness :
  let w := Vad._setup_vad_callbacks (Vad.mkWiring (Some Vad.UserCallback) None) in
  Vad.on_vad_detect_start w = Some Vad.VadInterrupt /\
  Vad.fire 1000 w fresh_vad = Some (emit CallOriginalVadStart fresh_vad) /\
  Vad.fire 1000 (Vad.enable_auto_interrupt true w) fresh_vad = None.
Proof.
  intros w. split; [reflexivity|]. split; [reflexivity|].
  apply (X11_enabling_twice_never_returns w eq_refl).
Defined.

(** ** The callbacks of the interruptible server *)

Lemma value_injective (r1 r2 : InterruptReason) : value r1 = value r2 -> r1 = r2.
Proof. destruct r1, r2; simpl; intros H; try reflexivity; discriminate. Qed.

(** X12: a ["tts_interrupted"] message tells the reason.  The five reasons
    have five different wire values, so two interruptions broadcast the same
    message only if they have the same reason. *)
Theorem X12_interruption_message_tells_the_reason (r1 r2 : InterruptReason)
    (f : Floor.State) :
  Floor.main_loop f = true ->
  Floor.on_speech_interrupted r1 f = Floor.on_speech_interrupted r2 f ->
  r1 = r2.
Proof.
  intros Hm H. unfold Floor.on_speech_interrupted, Floor.broadcast in H.
  simpl in H. rewrite Hm in H.
  injection H as H. apply app_inv_head in H. injection H as H.
  apply value_injective, H.
Qed.

Lemma X12_interruption_message_tells_the_reason_witness :
  let f := Floor.mkState true true [] in
  Floor.main_loop f = true /\ MANUAL = MANUAL.
Proof.
  intros f. split; [reflexivity|].
  apply (X12_interruption_message_tells_the_reason MANUAL MANUAL f); reflexivity.
Defined.

Lemma replay_app (a b : list Event) (f : Floor.State) :
  Floor.replay (a ++ b) f = Floor.replay b (Floor.replay a f).
Proof. unfold Floor.replay; apply fold_left_app. Qed.

(** X13: a round without playback leaves the server believing the
    assistant speaks.  When synthesis fails, or yields no audio, the wrapper
    has called [on_speech_start] and calls neither [on_speech_end] nor
    [on_speech_interrupted]: after the round the wrapper's [is_speaking] is
    reset, but the server's [is_assistant_speaking], set by the start
    callback, stays true. *)
Theorem X13_failed_round_leaves_server_speaking (E : Engine) (s : Sys)
    (t : AudioTask) (q : list (option AudioTask)) (f : Floor.State) :
  wpc s = AtGet ->
  audio_queue (obj s) = Some t :: q ->
  on_speech_start (obj s) = true ->
  (let '(items, raises) := communicate E (text t) (voice (obj s)) in
   truthy_bytes (generated E items raises [])) = None ->
  exists n,
    let s' := ticks E n s in
    wpc s' = AtGet /\
    is_speaking (obj s') = false /\
    Floor.is_assistant_speaking (Floor.replay (added s s') f) = true.
Proof.
  intros Hpc Hq Hcb Hgen. destruct s as [o pc tr]; simpl in *; subst pc.
  destruct (communicate E (text t) (voice o)) as [items raises] eqn:Hcom.
  exists (5 + (List.length items + 1) + 3).
  rewrite ticks_plus, (round_to_check E o tr t q items raises Hq Hcom).
  cbn [ticks]. repeat (step ltac:(rewrite ?Hgen)).
  unfold added; simpl. rewrite skipn_own, Hcb.
  split; [reflexivity|]. split; [reflexivity|].
  destruct (generated E items raises []); simpl;
    unfold Floor.on_speech_start, Floor.broadcast; simpl;
    destruct (Floor.main_loop f); reflexivity.
Qed.

Lemma X13_failed_round_leaves_server_speaking_witness :
  let t := mkTask "hello" "a" 1 [] in
  let s := snd (speak "hello" (Some "a") 1 None "u" fresh) in
  let f := Floor.mkState false true [] in
  wpc s = AtGet /\ audio_queue (obj s) = [Some t] /\
  on_speech_start (obj s) = true /\
  exists n,
    let s' := ticks failing_engine n s in
    wpc s' = AtGet /\
    is_speaking (obj s') = false /\
    Floor.is_assistant_speaking (Floor.replay (added s s') f) = true.
Proof.
  intros t s f. split; [reflexivity|]. split; [reflexivity|]. split; [reflexivity|].
  exact (X13_failed_round_leaves_server_speaking failing_engine s t [] f
           eq_refl eq_refl eq_refl eq_refl).
Defined.

(** ** The connected clients *)

Lemma existsb_eqb_in (c : nat) (xs : list nat) :
  existsb (Nat.eqb c) xs = true <-> In c xs.
Proof.
  rewrite existsb_exists. split.
  - intros (x & Hx & He). apply Nat.eqb_eq in He; subst; exact Hx.
  - intros H. exists c. split; [exact H|apply Nat.eqb_refl].
Qed.

Lemma set_add_fresh (c : nat) (xs : list nat) :
  ~ In c xs -> Clients.set_add c xs = xs ++ [c].
Proof.
  intros H. unfold Clients.set_add.
  destruct (existsb (Nat.eqb c) xs) eqn:He; [|reflexivity].
  apply existsb_eqb_in in He. contradiction.
Qed.

Lemma send_each_spec (closed : nat -> bool) (m : Srv.Message) (clients : list nat) :
  forall (disc : list nat) (log : list (nat * Srv.Message)),
    NoDup clients ->
    (forall c, In c clients -> ~ In c disc) ->
    Clients.send_each closed m clients disc log
    = (disc ++ filter closed clients,
       log ++ map (fun c => (c, m)) (filter (fun c => negb (closed c)) clients)).
Proof.
  induction clients as [|c r IH]; intros disc log Hnd Hfresh.
  - simpl; rewrite !app_nil_r; reflexivity.
  - inversion Hnd as [|? ? Hc Hr]; subst. cbn [Clients.send_each filter].
    destruct (closed c) eqn:Hcl; cbn [negb map].
    + rewrite set_add_fresh; [|apply Hfresh; left; reflexivity].
      rewrite IH; [rewrite <- app_assoc; reflexivity|exact Hr|].
      intros c' Hin Hd. apply in_app_or in Hd. destruct Hd as [Hd|[Hd|[]]].
      * apply (Hfresh c'); [right; exact Hin|exact Hd].
      * subst; contradiction.
    + rewrite IH; [rewrite <- app_assoc; reflexivity|exact Hr|].
      intros c' Hin. apply Hfresh; right; exact Hin.
Qed.

Lemma filter_twice {A : Type} (f g : A -> bool) (l : list A) :
  filter f (filter g l) = filter (fun x => g x && f x) l.
Proof.
  induction l as [|x l IH]; simpl; [reflexivity|].
  destruct (g x); simpl; [destruct (f x)|]; rewrite IH; reflexivity.
Qed.

Lemma remove_each_spec (disc : list nat) :
  forall clients : list nat,
    NoDup disc ->
    (forall d, In d disc -> In d clients) ->
    Clients.remove_each disc clients
    = Some (filter (fun x => negb (existsb (Nat.eqb x) disc)) clients).
Proof.
  induction disc as [|d r IH]; intros clients Hnd Hin.
  - simpl. f_equal. clear Hin.
    induction clients as [|x l IHl]; simpl; [reflexivity|rewrite <- IHl; reflexivity].
  - inversion Hnd as [|? ? Hd Hr]; subst. cbn [Clients.remove_each].
    unfold Clients.set_remove.
    destruct (existsb (Nat.eqb d) clients) eqn:He.
    + rewrite IH; [|exact Hr|].
      * f_equal. rewrite filter_twice. apply filter_ext. intros x. simpl.
        rewrite (Nat.eqb_sym d x). destruct (x =? d)%nat; reflexivity.
      * intros d' Hd'. apply filter_In. split; [apply Hin; right; exact Hd'|].
        destruct (d =? d')%nat eqn:Hdd; [|reflexivity].
        apply Nat.eqb_eq in Hdd; subst; contradiction.
    + assert (H : existsb (Nat.eqb d) clients = true)
        by (apply existsb_eqb_in, Hin; left; reflexivity).
      congruence.
Qed.

Lemma closed_among (closed : nat -> bool) (clients : list nat) (x : nat) :
  existsb (Nat.eqb x) (filter closed clients) = closed x && existsb (Nat.eqb x) clients.
Proof.
  induction clients as [|c r IH]; simpl; [rewrite andb_false_r; reflexivity|].
  destruct (closed c) eqn:Hc; simpl; rewrite IH.
  - destruct (x =? c)%nat eqn:Hx; simpl.
    + apply Nat.eqb_eq in Hx; subst. rewrite Hc; reflexivity.
    + reflexivity.
  - destruct (x =? c)%nat eqn:Hx; simpl; [|reflexivity].
    apply Nat.eqb_eq in Hx; subst. rewrite Hc; reflexivity.
Qed.

Lemma send_to_clients_spec (closed : nat -> bool) (m : Srv.Message) (h : Clients.Hub) :
  NoDup (Clients.connected_clients h) ->
  Clients.send_to_clients closed m h
  = Some (Clients.mkHub
            (filter (fun c => negb (closed c)) (Clients.connected_clients h))
            (Clients.delivered h
               ++ map (fun c => (c, m))
                      (filter (fun c => negb (closed c)) (Clients.connected_clients h)))).
Proof.
  destruct h as [clients log]; cbn [Clients.connected_clients Clients.delivered].
  intros Hnd. unfold Clients.send_to_clients.
  cbn [Clients.connected_clients Clients.delivered].
  destruct clients as [|c r]; [simpl; rewrite app_nil_r; reflexivity|].
  set (clients := c :: r) in *.
  rewrite send_each_spec; [|exact Hnd|intros ? ? []]. cbn [app].
  rewrite remove_each_spec.
  - f_equal. f_equal. apply filter_ext_in. intros x Hx.
    rewrite closed_among.
    assert (He : existsb (Nat.eqb x) clients = true) by (apply existsb_eqb_in, Hx).
    rewrite He, andb_true_r; reflexivity.
  - apply NoDup_filter, Hnd.
  - intros d Hd. apply filter_In in Hd. tauto.
Qed.

(** What the first loop has sent does not depend on the clients collected
    so far. *)
Lemma send_each_log (closed : nat -> bool) (m : Srv.Message) (clients : list nat) :
  forall (disc : list nat) (log : list (nat * Srv.Message)),
    snd (Clients.send_each closed m clients disc log)
    = log ++ map (fun c => (c, m)) (filter (fun c => negb (closed c)) clients).
Proof.
  induction clients as [|c r IH]; intros disc log.
  - simpl; rewrite app_nil_r; reflexivity.
  - cbn [Clients.send_each filter]. destruct (closed c); cbn [negb map].
    + apply IH.
    + rewrite IH, <- app_assoc; reflexivity.
Qed.

(** With no change to the set during its awaits, the coroutine is
    [send_to_clients] run in one go. *)
Lemma send_among_alone (closed : nat -> bool) (m : Srv.Message)
    (clients todo : list nat) :
  forall (disc : list nat) (log : list (nat * Srv.Message))
         (during : list Clients.Interference),
    Forall (fun i => i = None) during ->
    Clients.send_among closed m clients todo disc log during
    = match Clients.remove_each (fst (Clients.send_each closed m todo disc log)) clients with
      | Some clients' =>
          Clients.Returned
            (Clients.mkHub clients' (snd (Clients.send_each closed m todo disc log)))
      | None =>
          Clients.KeyError
            (Clients.mkHub clients (snd (Clients.send_each closed m todo disc log)))
      end.
Proof.
  induction todo as [|c r IH]; intros disc log during Hd; [reflexivity|].
  cbn [Clients.send_among Clients.send_each].
  destruct during as [|[cs|] later].
  - destruct (closed c); apply IH; constructor.
  - inversion Hd as [|? ? Hc _]; discriminate.
  - inversion Hd as [|? ? _ Hl]; subst. destruct (closed c); apply IH, Hl.
Qed.

Lemma send_to_clients_alone (closed : nat -> bool) (m : Srv.Message)
    (during : list Clients.Interference) (h h' : Clients.Hub) :
  Forall (fun i => i = None) during ->
  Clients.send_to_clients closed m h = Some h' ->
  Clients.send_to_clients_among closed m during h = Clients.Returned h'.
Proof.
  intros Hd. unfold Clients.send_to_clients, Clients.send_to_clients_among.
  destruct (Clients.connected_clients h) as [|c r] eqn:Hc.
  - intros H; injection H as <-; reflexivity.
  - rewrite (send_among_alone closed m (c :: r) (c :: r) [] (Clients.delivered h) during Hd).
    destruct (Clients.send_each closed m (c :: r) [] (Clients.delivered h)) as [d l].
    cbn [fst snd]. destruct (Clients.remove_each d (c :: r)); [|discriminate].
    intros H; injection H as <-; reflexivity.
Qed.

(** A change of size during the await of the [k]-th send ends the first
    loop there. *)
Lemma send_among_resized (closed : nat -> bool) (m : Srv.Message)
    (clients clients' : list nat) (later : list Clients.Interference) (k : nat) :
  forall (todo disc : list nat) (log : list (nat * Srv.Message)),
    k < List.length todo ->
    List.length clients' <> List.length clients ->
    Clients.send_among closed m clients todo disc log
      (repeat None k ++ Some clients' :: later)
    = Clients.RuntimeError
        (Clients.mkHub clients'
           (log ++ map (fun c => (c, m))
                       (filter (fun c => negb (closed c)) (firstn (S k) todo)))).
Proof.
  induction k as [|k IH]; intros todo disc log Hk Hlen;
    (destruct todo as [|c r]; [simpl in Hk; lia|]).
  - cbn [repeat app Clients.send_among firstn filter].
    apply Nat.eqb_neq in Hlen. rewrite Hlen.
    destruct (closed c); cbn [negb map]; [rewrite app_nil_r|]; reflexivity.
  - cbn [repeat app Clients.send_among]. rewrite IH; [|simpl in Hk; lia|exact Hlen].
    change (firstn (S (S k)) (c :: r)) with (c :: firstn (S k) r).
    cbn [filter]. destruct (closed c); cbn [negb map];
      rewrite <- ?app_assoc; reflexivity.
Qed.

(** X14: [send_to_clients] delivers to the live clients and prunes the
    rest, unless the set of clients changes size under it.  On an event loop
    where no other coroutine touches [connected_clients] while the sends are
    awaited, the message reaches exactly the clients whose connection is
    open, each once and in iteration order, afterwards exactly those clients
    remain connected, and the removal loop never fails.  If instead the set
    has another size after the await of some send, the iteration raises
    [RuntimeError] there: the clients not yet reached get nothing, and no
    closed connection is pruned. *)
Theorem X14_broadcast_prunes_closed_connections (closed : nat -> bool)
    (m : Srv.Message) (h : Clients.Hub) :
  NoDup (Clients.connected_clients h) ->
  let clients := Clients.connected_clients h in
  let live := filter (fun c => negb (closed c)) in
  (forall during,
     Forall (fun i => i = None) during ->
     Clients.send_to_clients_among closed m during h
     = Clients.Returned
         (Clients.mkHub (live clients)
            (Clients.delivered h ++ map (fun c => (c, m)) (live clients)))) /\
  (forall k clients' later,
     k < List.length clients ->
     List.length clients' <> List.length clients ->
     Clients.send_to_clients_among closed m (repeat None k ++ Some clients' :: later) h
     = Clients.RuntimeError
         (Clients.mkHub clients'
            (Clients.delivered h
               ++ map (fun c => (c, m)) (live (firstn (S k) clients))))).
Proof.
  intros Hnd clients live. split.
  - intros during Hd. apply send_to_clients_alone; [exact Hd|].
    apply send_to_clients_spec, Hnd.
  - intros k clients' later Hk Hlen. unfold Clients.send_to_clients_among.
    fold clients. destruct clients as [|c r] eqn:Hc; [simpl in Hk; lia|].
    apply send_among_resized; assumption.
Qed.

Lemma X14_broadcast_prunes_closed_connections_witness :
  let h := Clients.mkHub [1; 2; 3] [] in
  let m := Srv.mkMessage "vad_start" [] in
  NoDup (Clients.connected_clients h) /\
  Clients.send_to_clients_among (Nat.eqb 2) m [None; None; None] h
  = Clients.Returned (Clients.mkHub [1; 3] [(1, m); (3, m)]) /\
  Clients.send_to_clients_among (Nat.eqb 2) m [None; Some [1; 3]] h
  = Clients.RuntimeError (Clients.mkHub [1; 3] [(1, m)]).
Proof.
  intros h m.
  assert (Hnd : NoDup (Clients.connected_clients h)).
  { repeat constructor; simpl; intuition discriminate. }
  split; [exact Hnd|].
  destruct (X14_broadcast_prunes_closed_connections (Nat.eqb 2) m h Hnd) as [Ha Hr].
  split.
  - apply (Ha [None; None; None]). repeat constructor.
  - apply (Hr 1 [1; 3] []); simpl; lia.
Defined.

(** X15: the cleanup of [handle_client] fails for a client that a broadcast
    has already pruned.  After [send_to_clients] has met the closed
    connection of a client and removed it from the set,
    [connected_clients.remove(websocket)] in the [finally] block of that
    client's handler finds nothing to remove and raises; for a client whose
    connection was open, it removes the client. *)
Theorem X15_cleanup_after_pruning (closed : nat -> bool) (m : Srv.Message)
    (h : Clients.Hub) (c : nat) :
  NoDup (Clients.connected_clients h) ->
  In c (Clients.connected_clients h) ->
  exists h',
    Clients.send_to_clients closed m h = Some h' /\
    (closed c = true -> Clients.disconnect c h' = None) /\
    (closed c = false ->
     exists h'', Clients.disconnect c h' = Some h'' /\
                 ~ In c (Clients.connected_clients h'')).
Proof.
  intros Hnd Hin. eexists. split; [apply send_to_clients_spec, Hnd|].
  unfold Clients.disconnect, Clients.set_remove; simpl. split; intros Hc.
  - destruct (existsb _ _) eqn:He; [|reflexivity].
    apply existsb_eqb_in, filter_In in He. rewrite Hc in He. destruct He; discriminate.
  - assert (He : existsb (Nat.eqb c)
                   (filter (fun c0 => negb (closed c0)) (Clients.connected_clients h))
                 = true).
    { apply existsb_eqb_in, filter_In. rewrite Hc; auto. }
    rewrite He. eexists. split; [reflexivity|]. simpl.
    intros H. apply filter_In in H. destruct H as [_ H].
    rewrite Nat.eqb_refl in H; discriminate.
Qed.

Lemma X15_cleanup_after_pruning_witness :
  let h := Clients.mkHub [1; 2; 3] [] in
  let m := Srv.mkMessage "vad_start" [] in
  NoDup (Clients.connected_clients h) /\ In 2 (Clients.connected_clients h) /\
  exists h', Clients.send_to_clients (Nat.eqb 2) m h = Some h' /\
             Clients.disconnect 2 h' = None.
Proof.
  intros h m.
  assert (Hnd : NoDup (Clients.connected_clients h)).
  { repeat constructor; simpl; intuition discriminate. }
  assert (Hin : In 2 (Clients.connected_clients h)) by (right; left; reflexivity).
  split; [exact Hnd|]. split; [exact Hin|].
  destruct (X15_cleanup_after_pruning (Nat.eqb 2) m h 2 Hnd Hin) as (h' & Hs & Hc & _).
  exists h'. split; [exact Hs|apply Hc; reflexivity].
Defined.

(** ** The sentence loop of the interruptible server *)

Lemma last_n_bound {A : Type} (n : nat) (xs : list A) :
  List.length (Srv.last_n n xs) <= n /\ exists older, xs = older ++ Srv.last_n n xs.
Proof.
  unfold Srv.last_n. split.
  - rewrite length_skipn. lia.
  - exists (firstn (List.length xs - n) xs). symmetry; apply firstn_skipn.
Qed.

(** X16: the language model is shown a bounded context.  The reply of
    [generate_llm_response] depends on the model only through its answer to
    one kind of request: at most twenty entries from the end of the
    history, followed by the new user message.  Two models that agree on
    such requests give the same reply and the same history. *)
Theorem X16_llm_sees_bounded_context
    (llm1 llm2 : list (string * string) -> option string)
    (user_text : string) (v : Srv.Server) :
  (forall recent,
      List.length recent <= 20 ->
      (exists older, Srv.conversation_history v = older ++ recent) ->
      llm1 (recent ++ [("user", user_text)]) = llm2 (recent ++ [("user", user_text)])) ->
  Srv.generate_llm_response llm1 user_text v = Srv.generate_llm_response llm2 user_text v.
Proof.
  intros H. unfold Srv.generate_llm_response.
  destruct (truthy_str (Srv.api_key v)); [|reflexivity].
  destruct (last_n_bound 20 (Srv.conversation_history v)) as [Hlen Hsuf].
  rewrite (H _ Hlen Hsuf). reflexivity.
Qed.

Lemma X16_llm_sees_bounded_context_witness :
  let llm1 := fun msgs : list (string * string) =>
                if (List.length msgs <=? 21)%nat then Some "short" else Some "long" in
  let llm2 := fun _ : list (string * string) => Some "short" in
  let v := Srv.mkServer true true [] (Some "key") fresh [] in
  Srv.generate_llm_response llm1 "hi" v = Srv.generate_llm_response llm2 "hi" v.
Proof.
  intros llm1 llm2 v.
  apply (X16_llm_sees_bounded_context llm1 llm2 "hi" v).
  intros recent Hlen _. unfold llm1, llm2.
  assert (H : List.length (recent ++ [("user", "hi")]) <= 21)
    by (rewrite length_app; simpl; lia).
  apply Nat.leb_le in H. rewrite H. reflexivity.
Defined.

Lemma generate_history (llm : list (string * string) -> option string)
    (user_text : string) (v : Srv.Server) :
  let r := Srv.generate_llm_response llm user_text v in
  (Srv.conversation_history (snd r) = Srv.conversation_history v \/
   Srv.conversation_history (snd r)
   = Srv.conversation_history v ++ [("user", user_text); ("assistant", fst r)]) /\
  (fst r = Srv.missing_key_text \/ fst r = Srv.error_text \/
   llm (Srv.last_n 20 (Srv.conversation_history v) ++ [("user", user_text)])
   = Some (fst r)).
Proof.
  unfold Srv.generate_llm_response.
  destruct (truthy_str (Srv.api_key v)); [|simpl; auto].
  destruct (llm _) eqn:Hl; simpl; auto.
Qed.

(** What one round of the sentence loop does in assistant mode. *)
Lemma sentence_effect (llm : list (string * string) -> option string)
    (sentence ts1 ts2 uuid : string) (v : Srv.Server) :
  sentence <> "" ->
  Srv.conversation_mode v = true ->
  let r := Srv.generate_llm_response llm sentence v in
  let v' := Srv.on_full_sentence llm sentence ts1 ts2 uuid v in
  Srv.tts_wrapper v'
  = snd (call (mkCall (fst r) None 1 None uuid) (clear_queue (Srv.tts_wrapper v))) /\
  Srv.conversation_history v' = Srv.conversation_history (snd r) /\
  Srv.sent v' = Srv.sent v ++
     (if Srv.main_loop v
      then [Srv.mkMessage "fullSentence" [("text", sentence); ("timestamp", ts1)];
            Srv.mkMessage "assistant_processing" [];
            Srv.mkMessage "assistant_response" [("text", fst r); ("timestamp", ts2)]]
      else []) /\
  Srv.conversation_mode v' = true /\
  Srv.api_key v' = Srv.api_key v /\
  Srv.main_loop v' = Srv.main_loop v.
Proof.
  intros Hne Hmode r v'; subst r v'.
  apply String.eqb_neq in Hne.
  unfold Srv.on_full_sentence. rewrite Hne.
  destruct v as [ml cm hist key tts snt]; simpl in *; subst cm.
  unfold Srv.generate_llm_response, Srv.broadcast, call; simpl.
  destruct ml; simpl; destruct (truthy_str key); simpl;
    try destruct (llm _); simpl;
    rewrite <- ?app_assoc, ?app_nil_r; auto 7.
Qed.

Lemma paired_app (n : nat) :
  forall h h2 : list (string * string),
    List.length h <= n -> paired h = true -> paired h2 = true ->
    paired (h ++ h2) = true.
Proof.
  induction n as [|n IH]; intros h h2 Hn Hp Hp2.
  - destruct h; [exact Hp2|simpl in Hn; lia].
  - destruct h as [|[r1 c1] [|[r2 c2] rest]]; [exact Hp2|discriminate|].
    cbn [paired app] in *.
    apply andb_prop in Hp. destruct Hp as [Hr Hp]. rewrite Hr; simpl.
    apply IH; [simpl in Hn; lia|exact Hp|exact Hp2].
Qed.

Lemma paired_even (n : nat) :
  forall h : list (string * string),
    List.length h <= n -> paired h = true -> Nat.even (List.length h) = true.
Proof.
  induction n as [|n IH]; intros h Hn Hp.
  - destruct h; [reflexivity|simpl in Hn; lia].
  - destruct h as [|[r1 c1] [|[r2 c2] rest]]; [reflexivity|discriminate|].
    cbn [paired] in Hp. apply andb_prop in Hp. destruct Hp as [_ Hp].
    cbn [List.length Nat.even]. apply IH; [simpl in Hn; lia|exact Hp].
Qed.

Lemma sentence_keeps_pairs (llm : list (string * string) -> option string)
    (sentence ts1 ts2 uuid : string) (v : Srv.Server) :
  paired (Srv.conversation_history v) = true ->
  paired (Srv.conversation_history (Srv.on_full_sentence llm sentence ts1 ts2 uuid v))
  = true.
Proof.
  intros Hp.
  destruct (String.eqb sentence "") eqn:He.
  { unfold Srv.on_full_sentence; rewrite He; exact Hp. }
  destruct (Srv.conversation_mode v) eqn:Hm.
  - apply String.eqb_neq in He.
    destruct (sentence_effect llm sentence ts1 ts2 uuid v He Hm) as (_ & Hh & _).
    rewrite Hh.
    destruct (generate_history llm sentence v) as [[H|H] _]; rewrite H; [exact Hp|].
    apply (paired_app (List.length (Srv.conversation_history v))); auto.
  - unfold Srv.on_full_sentence; rewrite He.
    destruct v as [ml cm hist key tts snt]; simpl in *; subst cm.
    unfold Srv.broadcast; simpl. destruct ml; exact Hp.
Qed.

(** X17: the history of the interruptible server is made of whole
    exchanges.  Whatever sentences arrive and however the model answers or
    fails, a history that consists of user entries each followed by an
    assistant entry stays so: a turn is recorded only once its reply
    exists, and then both entries are added together. *)
Theorem X17_history_holds_whole_exchanges
    (inputs : list ((list (string * string) -> option string)
                    * string * string * string * string))
    (v : Srv.Server) :
  paired (Srv.conversation_history v) = true ->
  let v' := sentences inputs v in
  paired (Srv.conversation_history v') = true /\
  Nat.even (List.length (Srv.conversation_history v')) = true.
Proof.
  intros Hp v'.
  assert (H : paired (Srv.conversation_history v') = true).
  { subst v'. revert v Hp.
    induction inputs as [|[[[[llm s] t1] t2] u] inputs IH]; intros v Hp.
    - exact Hp.
    - unfold sentences in *; cbn [fold_left]. apply IH, sentence_keeps_pairs, Hp. }
  split; [exact H|]. apply (paired_even (List.length (Srv.conversation_history v'))); auto.
Qed.

Lemma X17_history_holds_whole_exchanges_witness :
  let answers := fun _ : list (string * string) => Some "it is noon" in
  let fails := fun _ : list (string * string) => @None string in
  let v := Srv.mkServer true true [] (Some "key") fresh [] in
  let v' := sentences [(answers, "what time is it", "t1", "t2", "u1");
                       (fails, "and now", "t3", "t4", "u2")] v in
  paired (Srv.conversation_history v) = true /\
  paired (Srv.conversation_history v') = true /\
  Srv.conversation_history v'
  = [("user", "what time is it"); ("assistant", "it is noon")].
Proof.
  intros answers fails v v'. split; [reflexivity|].
  split; [|reflexivity].
  exact (proj1 (X17_history_holds_whole_exchanges _ v eq_refl)).
Defined.






(** X20: without an API key the model is never consulted.  When
    [ANTHROPIC_API_KEY] is unset or empty, the round of the sentence loop is
    the same whatever the model would answer: the history is left alone and
    the fixed notice is broadcast and enqueued as the reply. *)
Theorem X20_missing_key_notice_is_spoken
    (llm1 llm2 : list (string * string) -> option string)
    (sentence ts1 ts2 uuid : string) (v : Srv.Server) :
  sentence <> "" ->
  Srv.conversation_mode v = true ->
  truthy_str (Srv.api_key v) = false ->
  let v' := Srv.on_full_sentence llm1 sentence ts1 ts2 uuid v in
  v' = Srv.on_full_sentence llm2 sentence ts1 ts2 uuid v /\
  Srv.conversation_history v' = Srv.conversation_history v /\
  audio_queue (obj (Srv.tts_wrapper v'))
  = [Some (mkTask Srv.missing_key_text uuid 1 [])].
Proof.
  intros Hne Hmode Hkey v'; subst v'.
  apply String.eqb_neq in Hne.
  unfold Srv.on_full_sentence. rewrite Hne.
  destruct v as [ml cm hist key tts snt]; simpl in *; subst cm.
  unfold Srv.generate_llm_response, Srv.broadcast; simpl.
  destruct ml; simpl; rewrite Hkey; simpl; repeat split;
    destruct (call_enqueues (mkCall Srv.missing_key_text None 1 None uuid)
                            (clear_queue tts)) as (_ & Hq & _);
    exact Hq.
Qed.

Lemma X20_missing_key_notice_is_spoken_witness :
  let llm1 := fun _ : list (string * string) => Some "it is noon" in
  let llm2 := fun _ : list (string * string) => @None string in
  let v := Srv.mkServer true true [] (Some "") fresh [] in
  let v' := Srv.on_full_sentence llm1 "what time is it" "t1" "t2" "u1" v in
  truthy_str (Srv.api_key v) = false /\
  v' = Srv.on_full_sentence llm2 "what time is it" "t1" "t2" "u1" v /\
  Srv.conversation_history v' = [].
Proof.
  intros llm1 llm2 v v'. split; [reflexivity|].
  assert (Hne : "what time is it" <> "") by discriminate.
  destruct (X20_missing_key_notice_is_spoken llm1 llm2 "what time is it" "t1" "t2"
              "u1" v Hne eq_refl eq_refl) as (H1 & H2 & _).
  split; [exact H1|exact H2].
Defined.

(** ** The enhanced server *)

Lemma accepted_sentence (text timestamp : string) (a : Enh.Assistant) :
  text <> "" ->
  text <> Enh.last_transcript a ->
  Enh.process_audio_loop text timestamp a
  = (let a2 := Enh.broadcast (Srv.mkMessage "user_message"
                                [("text", text); ("timestamp", timestamp)])
                             (Enh.set_last_transcript text a) in
     if Enh.processor a && Enh.llm_client a
     then
       let a3 := Enh.set_history (Enh.conversation_history a ++ [("user", text)]) a2 in
       if Enh.main_loop a then Enh.set_scheduled (Enh.scheduled a ++ [text]) a3 else a3
     else a2).
Proof.
  intros H1 H2. apply String.eqb_neq in H1, H2.
  unfold Enh.process_audio_loop. rewrite H1, H2; simpl.
  unfold Enh.broadcast; simpl.
  destruct (Enh.main_loop a) eqn:Hm; simpl; rewrite ?Hm; reflexivity.
Qed.

Lemma repeat_is_noop (text timestamp : string) (a : Enh.Assistant) :
  Enh.last_transcript a = text -> Enh.process_audio_loop text timestamp a = a.
Proof.
  intros H. unfold Enh.process_audio_loop.
  rewrite H, String.eqb_refl, andb_false_r. reflexivity.
Qed.

(** X21: a sentence repeated at once is suppressed.  Handling the same
    text twice in a row is the same as handling it once, whatever the text
    and the state: the second round changes nothing (no message, no history
    entry, no request to the model). *)
Theorem X21_repeated_sentence_is_suppressed (text ts1 ts2 : string)
    (a : Enh.Assistant) :
  Enh.process_audio_loop text ts2 (Enh.process_audio_loop text ts1 a)
  = Enh.process_audio_loop text ts1 a.
Proof.
  destruct (String.eqb text "") eqn:He.
  { unfold Enh.process_audio_loop. rewrite He; simpl. rewrite ?He; reflexivity. }
  destruct (String.eqb text (Enh.last_transcript a)) eqn:Hl.
  { apply String.eqb_eq in Hl. symmetry in Hl.
    rewrite (repeat_is_noop text ts1 a Hl). apply repeat_is_noop, Hl. }
  apply String.eqb_neq in He, Hl.
  rewrite (accepted_sentence text ts1 a He Hl).
  apply repeat_is_noop.
  unfold Enh.broadcast; simpl.
  destruct (Enh.main_loop a); simpl;
    destruct (Enh.processor a && Enh.llm_client a); reflexivity.
Qed.

Lemma accepted_fields (text timestamp : string) (a : Enh.Assistant) :
  text <> "" ->
  text <> Enh.last_transcript a ->
  Enh.processor a = true -> Enh.llm_client a = true -> Enh.main_loop a = true ->
  let a1 := Enh.process_audio_loop text timestamp a in
  Enh.last_transcript a1 = text /\
  Enh.processor a1 = true /\ Enh.llm_client a1 = true /\ Enh.main_loop a1 = true /\
  Enh.conversation_history a1 = Enh.conversation_history a ++ [("user", text)] /\
  Enh.scheduled a1 = Enh.scheduled a ++ [text].
Proof.
  intros Ht Hlast Hp Hl Hm a1; subst a1.
  rewrite (accepted_sentence text timestamp a Ht Hlast), Hp, Hl, Hm; simpl.
  unfold Enh.broadcast; simpl. rewrite Hm; simpl; auto 7.
Qed.

(** X22: only the sentence just before counts as a repeat.  The same text
    after a different sentence is handled again: with a model configured,
    and the event loop running, the three sentences A, B, A add three user
    entries to the history and schedule three replies. *)
Theorem X22_only_the_last_sentence_is_remembered (text other ts1 ts2 ts3 : string)
    (a : Enh.Assistant) :
  text <> "" -> other <> "" -> text <> other ->
  text <> Enh.last_transcript a ->
  Enh.processor a = true -> Enh.llm_client a = true -> Enh.main_loop a = true ->
  let a' := Enh.process_audio_loop text ts3
              (Enh.process_audio_loop other ts2
                 (Enh.process_audio_loop text ts1 a)) in
  Enh.conversation_history a'
  = Enh.conversation_history a ++ [("user", text); ("user", other); ("user", text)] /\
  Enh.scheduled a' = Enh.scheduled a ++ [text; other; text] /\
  Enh.last_transcript a' = text.
Proof.
  intros Ht Ho Hne Hlast Hp Hl Hm a'; subst a'.
  assert (Hno : other <> text) by congruence.
  destruct (accepted_fields text ts1 a Ht Hlast Hp Hl Hm)
    as (L1 & P1 & C1 & M1 & Hh1 & Hs1).
  set (a1 := Enh.process_audio_loop text ts1 a) in *.
  assert (Hlast1 : other <> Enh.last_transcript a1) by (rewrite L1; exact Hno).
  destruct (accepted_fields other ts2 a1 Ho Hlast1 P1 C1 M1)
    as (L2 & P2 & C2 & M2 & Hh2 & Hs2).
  set (a2 := Enh.process_audio_loop other ts2 a1) in *.
  assert (Hlast2 : text <> Enh.last_transcript a2) by (rewrite L2; exact Hne).
  destruct (accepted_fields text ts3 a2 Ht Hlast2 P2 C2 M2)
    as (L3 & _ & _ & _ & Hh3 & Hs3).
  rewrite Hh3, Hs3, Hh2, Hs2, Hh1, Hs1, <- !app_assoc. auto.
Qed.

Lemma X22_only_the_last_sentence_is_remembered_witness :
  let a := Enh.mkAssistant true true true (Turn.init 0) [] false "" [] [] [] in
  let a' := Enh.process_audio_loop "hello" "t3"
              (Enh.process_audio_loop "wait" "t2"
                 (Enh.process_audio_loop "hello" "t1" a)) in
  "hello" <> "" /\ "wait" <> "" /\ "hello" <> "wait" /\
  Enh.scheduled a' = ["hello"; "wait"; "hello"].
Proof.
  intros a a'.
  assert (H1 : "hello" <> "") by discriminate.
  assert (H2 : "wait" <> "") by discriminate.
  assert (H3 : "hello" <> "wait") by discriminate.
  split; [exact H1|]. split; [exact H2|]. split; [exact H3|].
  exact (proj1 (proj2 (X22_only_the_last_sentence_is_remembered "hello" "wait"
                         "t1" "t2" "t3" a H1 H2 H3 H1 eq_refl eq_refl eq_refl))).
Defined.

(** X23: in the enhanced server a failed reply leaves the user turn
    behind and is not retried.  The user entry is appended when the
    sentence arrives; if the model then fails, [process_response] swallows
    the error: no assistant entry, no message to the clients, nothing for
    the speech stream.  Saying the same sentence again right away changes
    nothing, as it counts as a repeat. *)
Theorem X23_failed_reply_is_dropped (llm : list (string * string) -> option string)
    (text ts1 ts2 ts3 : string) (a : Enh.Assistant) :
  text <> "" ->
  text <> Enh.last_transcript a ->
  Enh.processor a = true -> Enh.llm_client a = true -> Enh.main_loop a = true ->
  Enh.scheduled a = [] ->
  llm (Enh.messages_for text (Enh.conversation_history a ++ [("user", text)])) = None ->
  let a' := Enh.run_scheduled llm ts2 (Enh.process_audio_loop text ts1 a) in
  Enh.conversation_history a' = Enh.conversation_history a ++ [("user", text)] /\
  Enh.sent a' = Enh.sent a
                  ++ [Srv.mkMessage "user_message" [("text", text); ("timestamp", ts1)]] /\
  Enh.tts_stream a' = Enh.tts_stream a /\
  Enh.scheduled a' = [] /\
  Enh.process_audio_loop text ts3 a' = a'.
Proof.
  intros Ht Hlast Hp Hl Hm Hs Hllm a'; subst a'.
  rewrite (accepted_sentence text ts1 a Ht Hlast), Hp, Hl, Hm, Hs; simpl.
  unfold Enh.run_scheduled, Enh.process_response, Enh.generate_response,
    Enh.broadcast; simpl.
  rewrite Hm; simpl; rewrite Hllm; simpl.
  repeat split.
  unfold Enh.process_audio_loop; simpl.
  rewrite String.eqb_refl, andb_false_r; reflexivity.
Qed.

Lemma X23_failed_reply_is_dropped_witness :
  let llm := fun _ : list (string * string) => @None string in
  let a := Enh.mkAssistant true true true (Turn.init 0) [] false "" [] [] [] in
  let a' := Enh.run_scheduled llm "t2" (Enh.process_audio_loop "hello" "t1" a) in
  "hello" <> "" /\
  Enh.conversation_history a' = [("user", "hello")] /\
  Enh.process_audio_loop "hello" "t3" a' = a'.
Proof.
  intros llm a a'.
  assert (H1 : "hello" <> "") by discriminate.
  split; [exact H1|].
  destruct (X23_failed_reply_is_dropped llm "hello" "t1" "t2" "t3" a
              H1 H1 eq_refl eq_refl eq_refl eq_refl eq_refl) as (Hh & _ & _ & _ & Hr).
  split; [exact Hh|exact Hr].
Defined.

Lemma last_n_snoc {A : Type} (n : nat) (h : list A) (x : A) :
  Srv.last_n (S n) (h ++ [x]) = Srv.last_n n h ++ [x].
Proof.
  unfold Srv.last_n. rewrite length_app; simpl.
  replace (List.length h + 1 - S n) with (List.length h - n) by lia.
  rewrite skipn_app.
  replace (List.length h - n - List.length h) with 0 by lia.
  reflexivity.
Qed.

(** X24: the enhanced server shows the model the new utterance twice.  The
    sentence is appended to the history before the reply is requested, and
    the request is built from the last ten history entries plus the
    utterance again.  So the reply depends on the model only through its
    answer to requests that consist of at most nine earlier entries from the
    end of the history followed by the utterance, twice. *)
Theorem X24_model_sees_the_utterance_twice
    (llm1 llm2 : list (string * string) -> option string)
    (text ts1 ts2 : string) (a : Enh.Assistant) :
  text <> "" ->
  text <> Enh.last_transcript a ->
  Enh.processor a = true -> Enh.llm_client a = true -> Enh.main_loop a = true ->
  Enh.scheduled a = [] ->
  (forall recent,
      List.length recent <= 9 ->
      (exists older, Enh.conversation_history a = older ++ recent) ->
      llm1 (recent ++ [("user", text); ("user", text)])
      = llm2 (recent ++ [("user", text); ("user", text)])) ->
  Enh.run_scheduled llm1 ts2 (Enh.process_audio_loop text ts1 a)
  = Enh.run_scheduled llm2 ts2 (Enh.process_audio_loop text ts1 a).
Proof.
  intros Ht Hlast Hp Hl Hml Hs Hagree.
  rewrite (accepted_sentence text ts1 a Ht Hlast), Hp, Hl, Hml, Hs; simpl.
  unfold Enh.run_scheduled, Enh.process_response, Enh.generate_response,
    Enh.messages_for, Enh.broadcast; simpl.
  assert (Hm : forall (h : list (string * string)),
             h = Enh.conversation_history a ->
             llm1 (Srv.last_n 10 (h ++ [("user", text)]) ++ [("user", text)])
             = llm2 (Srv.last_n 10 (h ++ [("user", text)]) ++ [("user", text)])).
  { intros h ->. rewrite last_n_snoc, <- app_assoc. simpl.
    destruct (last_n_bound 9 (Enh.conversation_history a)) as [Hlen Hsuf].
    apply Hagree; assumption. }
  rewrite Hml; simpl; rewrite (Hm _ eq_refl); reflexivity.
Qed.

Lemma X24_model_sees_the_utterance_twice_witness :
  let twice := fun msgs : list (string * string) =>
                 match rev msgs with
                 | (_, x) :: (_, y) :: _ => String.eqb x y
                 | _ => false
                 end in
  let llm1 := fun msgs => if twice msgs then Some "yes" else Some "no" in
  let llm2 := fun _ : list (string * string) => Some "yes" in
  let a := Enh.mkAssistant true true true (Turn.init 0) [] false "" [] [] [] in
  "hello" <> "" /\
  Enh.run_scheduled llm1 "t2" (Enh.process_audio_loop "hello" "t1" a)
  = Enh.run_scheduled llm2 "t2" (Enh.process_audio_loop "hello" "t1" a).
Proof.
  intros twice llm1 llm2 a.
  assert (H1 : "hello" <> "") by discriminate.
  split; [exact H1|].
  apply (X24_model_sees_the_utterance_twice llm1 llm2 "hello" "t1" "t2" a
           H1 H1 eq_refl eq_refl eq_refl eq_refl).
  intros recent _ _. unfold llm1, llm2, twice.
  rewrite rev_app_distr. reflexivity.
Defined.

(** X25: clearing the history does not clear the memory of the last
    sentence.  After a ["clear_history"] message the history is empty, but
    [last_transcript] is what it was: the sentence that was handled last is
    still taken for a repeat and ignored. *)
Theorem X25_clear_history_keeps_the_last_sentence (a : Enh.Assistant)
    (timestamp : string) :
  let a' := snd (Enh.handle_control_message (Some "clear_history") a) in
  fst (Enh.handle_control_message (Some "clear_history") a) = None /\
  Enh.conversation_history a' = [] /\
  Enh.scheduled a' = Enh.scheduled a /\
  Enh.process_audio_loop (Enh.last_transcript a) timestamp a' = a'.
Proof.
  simpl. repeat split. apply repeat_is_noop. reflexivity.
Qed.

(** X26: a reply requested before the history was cleared lands in the
    cleared history.  ["clear_history"] does not cancel a scheduled
    [process_response]; when it runs, it asks the model with the utterance
    alone and appends the reply, which is then the only entry of the
    history: an assistant entry without its user entry. *)
Theorem X26_late_reply_lands_in_cleared_history
    (llm : list (string * string) -> option string)
    (text response timestamp : string) (rest : list string) (a : Enh.Assistant) :
  Enh.scheduled a = text :: rest ->
  llm [("user", text)] = Some response ->
  let a' := Enh.run_scheduled llm timestamp
              (snd (Enh.handle_control_message (Some "clear_history") a)) in
  Enh.conversation_history a' = [("assistant", response)] /\
  paired (Enh.conversation_history a') = false /\
  Enh.tts_stream a' = Enh.tts_stream a ++ [Enh.Feed response; Enh.PlayAsync].
Proof.
  intros Hs Hllm a'; subst a'. simpl.
  unfold Enh.run_scheduled; simpl. rewrite Hs.
  unfold Enh.process_response, Enh.generate_response, Enh.messages_for; simpl.
  unfold Srv.last_n; simpl. rewrite Hllm; simpl.
  rewrite <- app_assoc. auto.
Qed.

Lemma X26_late_reply_lands_in_cleared_history_witness :
  let llm := fun _ : list (string * string) => Some "it is noon" in
  let a := Enh.process_audio_loop "what time is it" "t1"
             (Enh.mkAssistant true true true (Turn.init 0) [] false "" [] [] []) in
  let a' := Enh.run_scheduled llm "t2"
              (snd (Enh.handle_control_message (Some "clear_history") a)) in
  Enh.scheduled a = ["what time is it"] /\
  Enh.conversation_history a = [("user", "what time is it")] /\
  Enh.conversation_history a' = [("assistant", "it is noon")].
Proof.
  intros llm a a'. split; [reflexivity|]. split; [reflexivity|].
  exact (proj1 (X26_late_reply_lands_in_cleared_history llm "what time is it"
                  "it is noon" "t2" [] a eq_refl eq_refl)).
Defined.

Lemma happen_detector (llm : list (string * string) -> option string)
    (e : Happening) (a : Enh.Assistant) :
  Enh.turn_detector (happen llm e a)
  = match e with
    | VadStart now => Turn.on_speech_start now (Enh.turn_detector a)
    | VadStop => Turn.on_speech_end (Enh.turn_detector a)
    | _ => Enh.turn_detector a
    end.
Proof.
  destruct e as [now| | | |text|text ts|ts|mt]; simpl.
  - unfold Enh.on_vad_start; simpl. destruct (Enh.is_speaking a); reflexivity.
  - reflexivity.
  - unfold Enh.on_tts_start, Enh.broadcast; simpl. destruct (Enh.main_loop a); reflexivity.
  - unfold Enh.on_tts_stop, Enh.broadcast; simpl. destruct (Enh.main_loop a); reflexivity.
  - unfold Enh.on_partial_transcription.
    destruct (negb (String.eqb text "") && Enh.main_loop a); reflexivity.
  - unfold Enh.process_audio_loop, Enh.broadcast; simpl.
    destruct (negb (String.eqb text "")
              && negb (String.eqb text (Enh.last_transcript a))); [|reflexivity].
    destruct (Enh.main_loop a) eqn:Hm; simpl;
      destruct (Enh.processor a && Enh.llm_client a); simpl; rewrite ?Hm; reflexivity.
  - unfold Enh.run_scheduled. destruct (Enh.scheduled a); [reflexivity|].
    unfold Enh.process_response; simpl.
    destruct (Enh.generate_response llm _ _); reflexivity.
  - destruct mt as [m|]; [|reflexivity]. simpl.
    repeat match goal with
           | |- context [match ?x with _ => _ end] => destruct x; try reflexivity
           end.
Qed.

(** X27: the turn detector follows the VAD events and nothing else.
    Through any sequence of callbacks, sentences, replies and control
    messages, [is_user_speaking] is what the last VAD event said (or what it
    was, if there was none): no other event touches it.  The pace and the
    silence threshold never change at all: nothing in the server calls
    [update_pace]. *)
Theorem X27_turn_detector_follows_vad_only
    (llm : list (string * string) -> option string)
    (es : list Happening) (a : Enh.Assistant) :
  let d := Enh.turn_detector a in
  let d' := Enh.turn_detector (happenings llm es a) in
  Turn.is_user_speaking d' = vad_says es (Turn.is_user_speaking d) /\
  Turn.conversation_pace d' = Turn.conversation_pace d /\
  Turn.silence_threshold d' = Turn.silence_threshold d.
Proof.
  revert a; induction es as [|e es IH]; intros a; [simpl; auto|].
  unfold happenings, vad_says in *; cbn [fold_left].
  destruct (IH (happen llm e a)) as (H1 & H2 & H3).
  rewrite H1, H2, H3, happen_detector.
  destruct e; simpl; auto.
Qed.
